(** * Reddit comment scraper: the retrieval-and-flattening core

    A shallow embedding of [index.js] and of its earlier variants: the
    recursive comment flattener [extractComments], the URL resolver
    [toRedditJsonUrl] in its four variants, the OAuth token cache
    [getRedditToken], the [POST /api/scrape] handler, and the visitor
    counter with its admin page.

    JavaScript strings are modelled by [string]; the only characters the
    code inspects are ASCII.  Numbers are the integer-valued ones, with
    [NaN] kept where the code can produce it. *)

Set Warnings "-register-all".
From Stdlib Require Import String Ascii List ZArith Lia Bool Arith.
From Stdlib Require Import DecimalString.
Import ListNotations.
Open Scope string_scope.
Open Scope list_scope.

(* ================================================================== *)
(** * JavaScript values as the code sees them *)
(* ================================================================== *)

(** A value produced by [JSON.parse] (and by [response.json()]).  An object
    is the list of its properties; the first binding of a key is its value. *)
Inductive json : Type :=
| JNull
| JBool (b : bool)
| JNum (n : Z)
| JStr (s : string)
| JArr (items : list json)
| JObj (props : list (string * json)).

(** A JavaScript value is a JSON value or [undefined], which is [None]. *)
Definition value := option json.

(** Exceptions carry their [message]. *)
Inductive exn : Type :=
| TypeError (message : string)
| FetchError (message : string).

Definition message_of (e : exn) : string :=
  match e with TypeError m => m | FetchError m => m end.

Inductive result (A : Type) : Type :=
| Ok (a : A)
| Throw (e : exn).
Arguments Ok {A} a.
Arguments Throw {A} e.

Definition bind {A B} (r : result A) (k : A -> result B) : result B :=
  match r with Ok a => k a | Throw e => Throw e end.

Notation "x <- r ;; k" := (bind r (fun x => k))
  (at level 61, r at next level, right associativity).

(** ToBoolean. *)
Definition truthy (v : value) : bool :=
  match v with
  | None => false
  | Some JNull => false
  | Some (JBool b) => b
  | Some (JNum n) => negb (n =? 0)%Z
  | Some (JStr s) => negb (s =? "")
  | Some (JArr _) => true
  | Some (JObj _) => true
  end.

(** [v === null || v === undefined]. *)
Definition nullish (v : value) : bool :=
  match v with None | Some JNull => true | Some _ => false end.

(** [v ?? dflt]: the result is never [undefined]. *)
Definition coalesce (v : value) (dflt : json) : json :=
  match v with None | Some JNull => dflt | Some j => j end.

Fixpoint own_property (k : string) (props : list (string * json)) : value :=
  match props with
  | [] => None
  | (k', v) :: rest => if k =? k' then Some v else own_property k rest
  end.

(** [v.k] for the property names the code reads; none of them is a
    property of a primitive wrapper or of [Array.prototype]. *)
Definition member (v : value) (k : string) : result value :=
  match v with
  | None =>
      Throw (TypeError
               ("Cannot read properties of undefined (reading '" ++ k ++ "')"))
  | Some JNull =>
      Throw (TypeError
               ("Cannot read properties of null (reading '" ++ k ++ "')"))
  | Some (JObj props) => Ok (own_property k props)
  | Some _ => Ok None
  end.

(** [v?.k]. *)
Definition opt_member (v : value) (k : string) : value :=
  match v with
  | Some (JObj props) => own_property k props
  | _ => None
  end.

Fixpoint chars (s : string) : list json :=
  match s with
  | EmptyString => []
  | String c rest => JStr (String c EmptyString) :: chars rest
  end.

(** The values [for (const x of v)] visits: the elements of an array, the
    characters of a string; anything else is not iterable. *)
Definition iterate (v : json) : result (list json) :=
  match v with
  | JArr items => Ok items
  | JStr s => Ok (chars s)
  | _ => Throw (TypeError "children is not iterable")
  end.

(* ================================================================== *)
(** * Comment Flattener ([extractComments]) *)
(* ================================================================== *)

(** The object literal pushed for a comment. *)
Record comment : Type := {
  author : json;
  body : json;
  score : json;
  created_utc : json
}.

(** [v === s] for a string literal [s]. *)
Definition strict_eq_string (v : value) (s : string) : bool :=
  match v with Some (JStr s') => s' =? s | _ => false end.

(** Lines 120-125: the record built from [d = child.data].  It is built
    only where [d.body] is truthy, so [body] is [d.body] itself. *)
Definition commentRecord (d : value) : comment :=
  {| author := coalesce (opt_member d "author") (JStr "[deleted]");
     body := coalesce (opt_member d "body") JNull;
     score := coalesce (opt_member d "score") (JNum 0);
     created_utc := coalesce (opt_member d "created_utc") JNull |}.

(** [d.replies?.data?.children]; [d] is known not to be nullish here. *)
Definition repliesChildren (d : value) : value :=
  opt_member (opt_member (opt_member d "replies") "data") "children".

(** One run of the [for] loop body and the rest of the loop; [self] is the
    recursive call and [comments] the array built so far. *)
Fixpoint extractLoop (self : json -> result (list comment))
    (items : list json) (comments : list comment) : result (list comment) :=
  match items with
  | [] => Ok comments
  | child :: rest =>
      kind <- member (Some child) "kind" ;;
      if strict_eq_string kind "t1" then
        d <- member (Some child) "data" ;;
        b <- member d "body" ;;
        let comments :=
          if truthy b then comments ++ [commentRecord d] else comments in
        let nested := repliesChildren d in
        if truthy nested then
          sub <- self (coalesce nested JNull) ;;
          extractLoop self rest (comments ++ sub)
        else extractLoop self rest comments
      else extractLoop self rest comments
  end.

Definition extractStep (self : json -> result (list comment))
    (children : json) : result (list comment) :=
  items <- iterate children ;;
  extractLoop self items [].

(** The recursion of [extractComments] unrolled [depth] times.  As many
    levels as the argument has nodes are enough: [extractComments] below
    satisfies the equation of the source, [extractComments_eq], so the
    first case is never reached from it. *)
Fixpoint extractCommentsN (depth : nat) (children : json)
    : result (list comment) :=
  match depth with
  | O => Throw (TypeError "Maximum call stack size exceeded")
  | S depth' => extractStep (extractCommentsN depth') children
  end.

Fixpoint json_size (j : json) : nat :=
  match j with
  | JArr items => S (fold_right (fun x n => json_size x + n) 0 items)
  | JObj props => S (fold_right (fun kv n => json_size (snd kv) + n) 0 props)
  | _ => 1
  end.

Definition extractComments (children : json) : result (list comment) :=
  extractCommentsN (json_size children) children.

(* ================================================================== *)
(** * Regular expressions and string methods used by the resolver *)
(* ================================================================== *)

(** The fragment of the regular expression syntax the code uses, with the
    backtracking semantics of the language: alternatives are tried left to
    right, [+] is greedy and gives characters back one at a time. *)
Inductive regex : Type :=
| Eps
| Chr (p : ascii -> bool)        (* one character of a class *)
| Seq (r1 r2 : regex)
| Alt (r1 r2 : regex)            (* r1|r2 *)
| Plus (p : ascii -> bool)       (* class+ *)
| Group (r : regex)              (* (r), capturing *)
| End.                           (* $ without the m flag *)

Definition outcome := option (string * list string).

(** The prefix of [s] consumed when [rest] is what remains of it. *)
Definition consumed (s rest : string) : string :=
  substring 0 (String.length s - String.length rest) s.

Fixpoint star (p : ascii -> bool) (k : string -> outcome) (s : string)
    : outcome :=
  match s with
  | String c s' =>
      if p c then
        match star p k s' with
        | Some m => Some m
        | None => k s
        end
      else k s
  | EmptyString => k s
  end.

(** [exec r s caps k]: match [r] at the start of [s], then continue with
    [k] on the rest; groups are recorded in the order they close. *)
Fixpoint exec (r : regex) (s : string) (caps : list string)
    (k : string -> list string -> outcome) : outcome :=
  match r with
  | Eps => k s caps
  | Chr p =>
      match s with
      | String c s' => if p c then k s' caps else None
      | EmptyString => None
      end
  | Seq r1 r2 => exec r1 s caps (fun s' caps' => exec r2 s' caps' k)
  | Alt r1 r2 =>
      match exec r1 s caps k with
      | Some m => Some m
      | None => exec r2 s caps k
      end
  | Plus p =>
      match s with
      | String c s' => if p c then star p (fun s'' => k s'' caps) s' else None
      | EmptyString => None
      end
  | Group r1 => exec r1 s caps (fun s' caps' => k s' (caps' ++ [consumed s s']))
  | End =>
      match s with
      | EmptyString => k s caps
      | String _ _ => None
      end
  end.

(** The result of a successful match: [whole] is [match[0]], [groups] are
    [match[1]], [match[2]], ... *)
Record regmatch : Type := {
  before : string;
  whole : string;
  groups : list string;
  after : string
}.

(** The leftmost match: every start position is tried in turn. *)
Fixpoint search (r : regex) (skipped s : string) : option regmatch :=
  match exec r s [] (fun rest caps => Some (rest, caps)) with
  | Some (rest, caps) =>
      Some {| before := skipped; whole := consumed s rest;
              groups := caps; after := rest |}
  | None =>
      match s with
      | EmptyString => None
      | String c s' => search r (skipped ++ String c "")%string s'
      end
  end.

(** [s.match(r)] for a regular expression without the g flag. *)
Definition str_match (s : string) (r : regex) : option regmatch :=
  search r "" s.

(** [match[i]], [i >= 1]. *)
Definition group (m : regmatch) (i : nat) : string :=
  nth (i - 1) (groups m) "".

(** [s.replace(r, by)]: the first match only; [by] has no [$] pattern. *)
Definition str_replace (s : string) (r : regex) (by_ : string) : string :=
  match search r "" s with
  | Some m => (before m ++ by_ ++ after m)%string
  | None => s
  end.

(** [s.split(sep)[0]] for a one-character separator. *)
Fixpoint split_first (sep : ascii) (s : string) : string :=
  match s with
  | EmptyString => EmptyString
  | String c s' =>
      if Ascii.eqb c sep then EmptyString else String c (split_first sep s')
  end.

(** [s.endsWith(suffix)]. *)
Definition endsWith (s suffix : string) : bool :=
  (String.length suffix <=? String.length s)%nat &&
  (substring (String.length s - String.length suffix)
     (String.length suffix) s =? suffix).

(** Canonicalisation under the i flag (no u flag): characters are compared
    by their upper-case form, and only ASCII letters change. *)
Definition upper (c : ascii) : ascii :=
  let n := nat_of_ascii c in
  if ((97 <=? n) && (n <=? 122))%nat then ascii_of_nat (n - 32) else c.

Definition char_is (c : ascii) : ascii -> bool := fun x => Ascii.eqb x c.
Definition char_is_i (c : ascii) : ascii -> bool :=
  fun x => Ascii.eqb (upper x) (upper c).
Definition not_slash : ascii -> bool := fun x => negb (Ascii.eqb x "/").
(** [[a-z0-9]] under the i flag. *)
Definition alnum_i : ascii -> bool :=
  fun x =>
    let n := nat_of_ascii (upper x) in
    (((65 <=? n) && (n <=? 90)) || ((48 <=? n) && (n <=? 57)))%nat.

(** A literal, case-sensitive or under the i flag. *)
Fixpoint lit (s : string) : regex :=
  match s with
  | EmptyString => Eps
  | String c s' => Seq (Chr (char_is c)) (lit s')
  end.

Fixpoint lit_i (s : string) : regex :=
  match s with
  | EmptyString => Eps
  | String c s' => Seq (Chr (char_is_i c)) (lit_i s')
  end.

(** [/\/r\/([^/]+)\/comments\/([^/]+)/i] *)
Definition re_subreddit_thread : regex :=
  Seq (lit_i "/r/")
    (Seq (Group (Plus not_slash))
       (Seq (lit_i "/comments/") (Group (Plus not_slash)))).

(** [/\/comments\/([^/]+)/i] *)
Definition re_thread : regex :=
  Seq (lit_i "/comments/") (Group (Plus not_slash)).

(** [/\/comments\/([a-z0-9]+)/i] *)
Definition re_thread_alnum : regex :=
  Seq (lit_i "/comments/") (Group (Plus alnum_i)).

(** [/\/+$/] *)
Definition re_trailing_slashes : regex :=
  Seq (Plus (char_is "/")) End.

(** [/(old|mobile|pay)\.reddit\.com/] *)
Definition re_alt_host : regex :=
  Seq (Group (Alt (lit "old") (Alt (lit "mobile") (lit "pay"))))
    (lit ".reddit.com").

(* ================================================================== *)
(** * What all variants of the handler share *)
(* ================================================================== *)

(** The fallback normalisation of the public variants:
    [userUrl.split("?")[0].replace(/\/+$/, "")], then the suffix. *)
Definition cleaned (userUrl : string) : string :=
  str_replace (split_first "?" userUrl) re_trailing_slashes "".

Definition with_json_suffix (cleaned : string) : string :=
  if negb (endsWith cleaned ".json") then (cleaned ++ ".json")%string
  else cleaned.

(** An upstream response, completely received: its status, its body as
    text, and what [response.json()] makes of the body.  Reading the text
    of a received body, which the handlers do for the log only, does not
    fail; parsing it may. *)
Record response : Type := {
  status : Z;
  body_text : string;
  body_json : result json
}.

(** [response.ok] *)
Definition ok (r : response) : bool :=
  ((200 <=? status r) && (status r <=? 299))%Z.

(** Requests and body reads, in the order they are issued. *)
Inductive event : Type :=
| TokenRequest (id secret : string)          (* POST /api/v1/access_token *)
| ThreadRequest (url : string) (bearer : option json)   (* GET jsonUrl *)
| ReadText                                   (* response.text() *)
| ReadJson.                                  (* response.json() *)

(** What the handler sends: [res.status(code).json(payload)]. *)
Inductive reply : Type :=
| Reply (code : Z) (payload : json).

Definition error_payload (msg : string) : json :=
  JObj [("error", JStr msg)].

(** The [catch] clause of the handler. *)
Definition internal_error (err : exn) : reply :=
  Reply 500
    (error_payload
       (if message_of err =? "" then "Internal server error"
        else message_of err)).

(** [`${n}`] for an integer. *)
Definition decimal (n : Z) : string := NilZero.string_of_int (Z.to_int n).

(** [v[i]] and [v?.[i]]. *)
Definition at_index (j : json) (i : nat) : value :=
  match j with
  | JArr items => nth_error items i
  | JObj props => own_property (decimal (Z.of_nat i)) props
  | JStr s =>
      match String.get i s with
      | Some c => Some (JStr (String c ""))
      | None => None
      end
  | _ => None
  end.

Definition elem (v : value) (i : nat) : result value :=
  match v with
  | None => Throw (TypeError "Cannot read properties of undefined")
  | Some JNull => Throw (TypeError "Cannot read properties of null")
  | Some j => Ok (at_index j i)
  end.

Definition opt_elem (v : value) (i : nat) : value :=
  match v with
  | None | Some JNull => None
  | Some j => at_index j i
  end.

Definition json_of_comment (c : comment) : json :=
  JObj [("author", author c); ("body", body c); ("score", score c);
        ("created_utc", created_utc c)].

(** From [const json = await response.json()] to [res.json(...)]. *)
Definition threadResult (json : json) : result reply :=
  first <- elem (Some json) 0 ;;
  let postData :=
    coalesce
      (opt_member
         (opt_elem (opt_member (opt_member first "data") "children") 0)
         "data")
      (JObj []) in
  let title := coalesce (opt_member (Some postData) "title") (JStr "") in
  let body := coalesce (opt_member (Some postData) "selftext") (JStr "") in
  second <- elem (Some json) 1 ;;
  comments <-
    extractComments
      (coalesce (opt_member (opt_member second "data") "children")
         (JArr [])) ;;
  Ok (Reply 200
        (JObj [("title", title); ("body", body);
               ("comments", JArr (map json_of_comment comments))])).

(** A call [f(url)] whose body starts with [userUrl.method(...)]. *)
Definition on_string {A} (method : string) (f : string -> A) (url : value)
    : result A :=
  match url with
  | Some (JStr s) => Ok (f s)
  | _ => Throw (TypeError ("userUrl." ++ method ++ " is not a function"))
  end.

(** The handler of the public variants: no token, and the body of a
    failed response is read for the log where [logsSnippet] is set.
    [get] is [fetch(jsonUrl, ...)]. *)
Definition publicScrape (method : string)
    (toRedditJsonUrl : string -> string) (logsSnippet : bool)
    (get : string -> result response) (req_body : value)
    : reply * list event :=
  match member req_body "url" with
  | Throw err => (internal_error err, [])
  | Ok url =>
  if negb (truthy url) then
    (Reply 400 (error_payload "URL is required"), [])
  else
  match on_string method toRedditJsonUrl url with
  | Throw err => (internal_error err, [])
  | Ok jsonUrl =>
  let fetched := [ThreadRequest jsonUrl None] in
  match get jsonUrl with
  | Throw err => (internal_error err, fetched)
  | Ok response =>
  if negb (ok response) then
    (Reply (status response)
       (error_payload
          ("Reddit returned status " ++ decimal (status response))),
     fetched ++ (if logsSnippet then [ReadText] else []))
  else
  match json <- body_json response ;; threadResult json with
  | Throw err => (internal_error err, fetched ++ [ReadJson])
  | Ok sent => (sent, fetched ++ [ReadJson])
  end end end end.

(* ================================================================== *)
(** * [index.js]: the credentialed variant *)
(* ================================================================== *)

(** Numbers: the integers and [NaN], which [undefined * 1000] produces. *)
Inductive number : Type :=
| Num (z : Z)
| NaN.

Definition num_add (a b : number) : number :=
  match a, b with Num x, Num y => Num (x + y) | _, _ => NaN end.
Definition num_sub (a b : number) : number :=
  match a, b with Num x, Num y => Num (x - y) | _, _ => NaN end.
Definition num_mul (a b : number) : number :=
  match a, b with Num x, Num y => Num (x * y) | _, _ => NaN end.
(** [a < b]; a comparison with [NaN] is [false]. *)
Definition num_lt (a b : number) : bool :=
  match a, b with Num x, Num y => (x <? y)%Z | _, _ => false end.

(** [process.env]: a variable is a string or [undefined]. *)
Record env : Type := {
  REDDIT_CLIENT_ID : option string;
  REDDIT_CLIENT_SECRET : option string
}.

Definition truthy_string (s : option string) : bool :=
  match s with None => false | Some s' => negb (s' =? "") end.

(** The two module-level variables of the token cache. *)
Record cache : Type := {
  cachedToken : json;
  tokenExpiry : number
}.

(** What one call of [getRedditToken] reads from outside: [Date.now()] at
    the validity check, the outcome of the [fetch] of the token endpoint
    followed by [response.json()], and [Date.now()] when the token is
    stored. *)
Record token_io : Type := {
  now_check : Z;
  token_response : result json;
  now_store : Z
}.

(** What one request reads from outside. *)
Record scrape_io : Type := {
  auth : token_io;
  upstream : string -> result response     (* fetch(jsonUrl, ...) *)
}.

Module Credentialed.
Section Language.

(** ToNumber on strings, arrays and objects is left to the language. *)
Variable ToNumberOther : json -> number.

Definition ToNumber (v : value) : number :=
  match v with
  | None => NaN
  | Some JNull => Num 0
  | Some (JBool b) => Num (if b then 1 else 0)
  | Some (JNum n) => Num n
  | Some j => ToNumberOther j
  end.

(** [let cachedToken = null; let tokenExpiry = 0;] *)
Definition initial : cache :=
  {| cachedToken := JNull; tokenExpiry := Num 0 |}.

Definition getRedditToken (e : env) (io : token_io) (st : cache)
    : json * cache * list event :=
  let id := REDDIT_CLIENT_ID e in
  let secret := REDDIT_CLIENT_SECRET e in
  if negb (truthy_string id) || negb (truthy_string secret) then
    (JNull, st, [])
  else if truthy (Some (cachedToken st))
          && num_lt (Num (now_check io))
               (num_sub (tokenExpiry st) (Num 60000)) then
    (cachedToken st, st, [])
  else
    let request :=
      [TokenRequest (match id with Some s => s | None => "" end)
                    (match secret with Some s => s | None => "" end)] in
    (* try *)
    match data <- token_response io ;;
          access_token <- member (Some data) "access_token" ;;
          Ok (data, access_token)
    with
    | Ok (data, access_token) =>
        if truthy access_token then
          let st' :=
            {| cachedToken := coalesce access_token JNull;
               tokenExpiry :=
                 num_add (Num (now_store io))
                   (num_mul (ToNumber (opt_member (Some data) "expires_in"))
                      (Num 1000)) |} in
          (cachedToken st', st', request)
        else (JNull, st, request)
    | Throw _ => (* catch *) (JNull, st, request)
    end.

(** The cache states the process can be in: the variables are written
    by [getRedditToken] alone, and the environment does not change. *)
Inductive reachable (e : env) : cache -> Prop :=
| reachable_initial : reachable e initial
| reachable_call st io :
    reachable e st ->
    reachable e (snd (fst (getRedditToken e io st))).

Definition toRedditJsonUrl (userUrl : string) : option string :=
  match str_match userUrl re_subreddit_thread with
  | Some m =>
      Some ("https://oauth.reddit.com/r/" ++ group m 1 ++ "/comments/"
              ++ group m 2)%string
  | None =>
      match str_match userUrl re_thread with
      | Some shortMatch =>
          Some ("https://oauth.reddit.com/comments/"
                  ++ group shortMatch 1)%string
      | None => None
      end
  end.

(** Lines 155-210. *)
Definition scrape (e : env) (io : scrape_io) (st : cache) (req_body : value)
    : reply * cache * list event :=
  match member req_body "url" with
  | Throw err => (internal_error err, st, [])
  | Ok url =>
  if negb (truthy url) then
    (Reply 400 (error_payload "URL is required"), st, [])
  else
  match on_string "match" toRedditJsonUrl url with
  | Throw err => (internal_error err, st, [])
  | Ok jsonUrl =>
  if negb (truthy_string jsonUrl) then
    (Reply 400 (error_payload "Invalid Reddit URL format"), st, [])
  else
  let jsonUrl := match jsonUrl with Some u => u | None => "" end in
  let '(token, st', asked) := getRedditToken e (auth io) st in
  if negb (truthy (Some token)) then
    (Reply 500
       (error_payload
          "Could not authenticate with Reddit. Check API credentials."),
     st', asked)
  else
  let fetched := asked ++ [ThreadRequest jsonUrl (Some token)] in
  match upstream io jsonUrl with
  | Throw err => (internal_error err, st', fetched)
  | Ok response =>
  if negb (ok response) then
    (Reply (status response)
       (error_payload
          ("Reddit API returned status " ++ decimal (status response))),
     st', fetched ++ [ReadText])
  else
  match json <- body_json response ;; threadResult json with
  | Throw err => (internal_error err, st', fetched ++ [ReadJson])
  | Ok sent => (sent, st', fetched ++ [ReadJson])
  end end end end.

End Language.
End Credentialed.

(* ================================================================== *)
(** * The public variants *)
(* ================================================================== *)

(** First file of [part_000]: the short public endpoint, then the
  fallback. *)
Module PublicShort.
Definition toRedditJsonUrl (userUrl : string) : string :=
  match str_match userUrl re_thread_alnum with
  | Some m =>
      ("https://www.reddit.com/comments/" ++ group m 1 ++ ".json")%string
  | None => with_json_suffix (cleaned userUrl)
  end.

Definition scrape := publicScrape "match" toRedditJsonUrl true.
End PublicShort.

(** Second file of [part_000]: the fallback alone, and no log. *)
Module PublicBasic.
Definition toRedditJsonUrl (userUrl : string) : string :=
  with_json_suffix (cleaned userUrl).

Definition scrape := publicScrape "split" toRedditJsonUrl false.
End PublicBasic.

(** [part_001]: the fallback, then the host rewrite. *)
Module PublicHost.
Definition toRedditJsonUrl (userUrl : string) : string :=
  str_replace (with_json_suffix (cleaned userUrl)) re_alt_host
    "www.reddit.com".

Definition scrape := publicScrape "split" toRedditJsonUrl true.
End PublicHost.

(* ================================================================== *)
(** * Vocabulary of the statements *)
(* ================================================================== *)

(** ** Comment trees *)

(** [child.kind === "t1"]: the node is a comment. *)
Definition is_comment (child : json) : bool :=
  match member (Some child) "kind" with
  | Ok kind => strict_eq_string kind "t1"
  | Throw _ => false
  end.

(** [child.data] *)
Definition data_of (child : json) : value := opt_member (Some child) "data".

(** The record a comment contributes itself: none without a body. *)
Definition own_record (d : value) : list comment :=
  if truthy (opt_member d "body") then [commentRecord d] else [].

(** The records of the replies nested under a comment. *)
Definition repliesOf (d : value) : result (list comment) :=
  if truthy (repliesChildren d) then
    extractComments (coalesce (repliesChildren d) JNull)
  else Ok [].

(** A well-formed comment tree: a listing array of objects, in which the
    data of a comment is an object and the replies nested under it, where
    there are any, form a comment tree again. *)
Inductive comment_tree : json -> Prop :=
| tree_nil : comment_tree (JArr [])
| tree_other props rest :
    strict_eq_string (own_property "kind" props) "t1" = false ->
    comment_tree (JArr rest) ->
    comment_tree (JArr (JObj props :: rest))
| tree_comment props dprops rest :
    strict_eq_string (own_property "kind" props) "t1" = true ->
    own_property "data" props = Some (JObj dprops) ->
    (truthy (repliesChildren (Some (JObj dprops))) = true ->
     comment_tree (coalesce (repliesChildren (Some (JObj dprops))) JNull)) ->
    comment_tree (JArr rest) ->
    comment_tree (JArr (JObj props :: rest)).

(** [comment_in listing child]: [child] is a comment node of the tree
    under [listing], at any depth. *)
Inductive comment_in : json -> json -> Prop :=
| comment_here listing items child :
    iterate listing = Ok items -> In child items ->
    is_comment child = true ->
    comment_in listing child
| comment_below listing parent nested child :
    comment_in listing parent ->
    truthy (repliesChildren (data_of parent)) = true ->
    repliesChildren (data_of parent) = Some nested ->
    comment_in nested child ->
    comment_in listing child.

(** [r] is the record of the comment [child], which has a body that is
    neither missing, nor null, nor the empty string. *)
Definition emitted_by (child : json) (r : comment) : Prop :=
  exists b, opt_member (data_of child) "body" = Some b /\ b <> JStr "" /\
            b <> JNull /\ r = commentRecord (data_of child) /\ body r = b.

(** The tree of the example: A ("hi") with the replies B ("yo") and C (no
    body), and D ("hey") under C. *)
Definition listing (children : list json) : json :=
  JObj [("kind", JStr "Listing"); ("data", JObj [("children", JArr children)])].

Definition t1 (fields : list (string * json)) (replies : json) : json :=
  JObj [("kind", JStr "t1"); ("data", JObj (fields ++ [("replies", replies)]))].

Definition node_D : json :=
  t1 [("author", JStr "D"); ("body", JStr "hey")] (JStr "").
Definition node_C : json :=
  t1 [("author", JStr "C")] (listing [node_D]).
Definition node_B : json :=
  t1 [("author", JStr "B"); ("body", JStr "yo")] (JStr "").
Definition node_A : json :=
  t1 [("author", JStr "A"); ("body", JStr "hi")] (listing [node_B; node_C]).

Definition record_of (name text : string) : comment :=
  {| author := JStr name; body := JStr text; score := JNum 0;
     created_utc := JNull |}.

(** ** The resolver *)

Fixpoint upper_string (s : string) : string :=
  match s with
  | EmptyString => EmptyString
  | String c s' => String (upper c) (upper_string s')
  end.




Fixpoint all_chars (p : ascii -> bool) (s : string) : bool :=
  match s with
  | String c s' => p c && all_chars p s'
  | EmptyString => true
  end.

(** ** The token cache and the handler *)

(** [Date.now() < tokenExpiry - 60000] *)
Definition in_window (io : token_io) (st : cache) : bool :=
  num_lt (Num (now_check io)) (num_sub (tokenExpiry st) (Num 60000)).

(** Both credentials are set. *)
Definition configured (e : env) : bool :=
  truthy_string (REDDIT_CLIENT_ID e) && truthy_string (REDDIT_CLIENT_SECRET e).

Definition is_token_request (ev : event) : bool :=
  match ev with TokenRequest _ _ => true | _ => false end.

Definition is_thread_request (ev : event) : bool :=
  match ev with ThreadRequest _ _ => true | _ => false end.

(** The reply of lines 170-174. *)
Definition auth_error : reply :=
  Reply 500
    (error_payload
       "Could not authenticate with Reddit. Check API credentials.").


(* ================================================================== *)
(** * Deterministic readings of the regular expressions

    Each is proved below to be what the backtracking matcher computes. *)
(* ================================================================== *)

(** [s] without the literal [w] in front of it; [eqc] compares a character
    of the literal with one of the input. *)
Fixpoint strip (eqc : ascii -> ascii -> bool) (w s : string) : option string :=
  match w with
  | EmptyString => Some s
  | String a w' =>
      match s with
      | String c s' => if eqc a c then strip eqc w' s' else None
      | EmptyString => None
      end
  end.

Fixpoint take_while (p : ascii -> bool) (s : string) : string :=
  match s with
  | String c s' => if p c then String c (take_while p s') else EmptyString
  | EmptyString => EmptyString
  end.

Fixpoint drop_while (p : ascii -> bool) (s : string) : string :=
  match s with
  | String c s' => if p c then drop_while p s' else s
  | EmptyString => EmptyString
  end.

Definition starts_with (p : ascii -> bool) (s : string) : bool :=
  match s with String c _ => p c | EmptyString => false end.

(** The continuation of a whole match. *)
Definition final : string -> list string -> outcome :=
  fun rest caps => Some (rest, caps).

(** [(class+)] at the start of [s]: the longest run. *)
Definition at_run (p : ascii -> bool) (s : string) : outcome :=
  if starts_with p s then Some (drop_while p s, [take_while p s]) else None.

(** [\/comments\/(class+)] under the i flag, at the start of [s]. *)
Definition at_thread (p : ascii -> bool) (s : string) : outcome :=
  match strip char_is_i "/comments/" s with
  | Some s1 => at_run p s1
  | None => None
  end.

(** [re_subreddit_thread] at the start of [s]. *)
Definition at_subreddit_thread (s : string) : outcome :=
  match strip char_is_i "/r/" s with
  | Some s1 =>
      if starts_with not_slash s1 then
        match at_thread not_slash (drop_while not_slash s1) with
        | Some (rest, g) => Some (rest, take_while not_slash s1 :: g)
        | None => None
        end
      else None
  | None => None
  end.

(** [re_trailing_slashes] at the start of [s]. *)
Definition at_trailing_slashes (s : string) : outcome :=
  if starts_with (char_is "/") s && all_chars (char_is "/") s
  then Some ("", []) else None.

(** One alternative of [re_alt_host] at the start of [s]. *)
Definition at_host (w : string) (s : string) : outcome :=
  match strip char_is w s with
  | Some s1 =>
      match strip char_is ".reddit.com" s1 with
      | Some rest => Some (rest, [w])
      | None => None
      end
  | None => None
  end.

Definition at_alt_host (s : string) : outcome :=
  match at_host "old" s with
  | Some m => Some m
  | None =>
      match at_host "mobile" s with
      | Some m => Some m
      | None => at_host "pay" s
      end
  end.

(** [search] over a deterministic reading. *)
Fixpoint find (at_ : string -> outcome) (skipped s : string)
    : option regmatch :=
  match at_ s with
  | Some (rest, caps) =>
      Some {| before := skipped; whole := consumed s rest;
              groups := caps; after := rest |}
  | None =>
      match s with
      | EmptyString => None
      | String c s' => find at_ (skipped ++ String c "")%string s'
      end
  end.

(** [s.replace(/\/+$/, "")] *)
Fixpoint rstrip (s : string) : string :=
  match s with
  | EmptyString => EmptyString
  | String c s' =>
      if Ascii.eqb c "/" && (rstrip s' =? "") then EmptyString
      else String c (rstrip s')
  end.

(** [s] has no question mark. *)
Definition no_query (s : string) : bool :=
  all_chars (fun c => negb (Ascii.eqb c "?")) s.

(* ================================================================== *)
(** * Concrete runs *)
(* ================================================================== *)

(** No coercion of a string or an object to a number is involved. *)
Definition no_coercion : json -> number := fun _ => NaN.

Definition with_credentials : env :=
  {| REDDIT_CLIENT_ID := Some "id"; REDDIT_CLIENT_SECRET := Some "secret" |}.

Definition without_credentials : env :=
  {| REDDIT_CLIENT_ID := None; REDDIT_CLIENT_SECRET := None |}.

(** A token valid for an hour, granted at time 1000. *)
Definition grant : token_io :=
  {| now_check := 0;
     token_response :=
       Ok (JObj [("access_token", JStr "tok"); ("expires_in", JNum 3600)]);
     now_store := 1000 |}.

Definition granted : cache :=
  {| cachedToken := JStr "tok"; tokenExpiry := Num 3601000 |}.

(** A call at time [now] for which the token endpoint is down. *)
Definition call_at (now : Z) : token_io :=
  {| now_check := now;
     token_response := Throw (FetchError "request failed");
     now_store := now |}.

Definition forbidden : response :=
  {| status := 403; body_text := "Forbidden";
     body_json := Throw (FetchError "invalid json response body") |}.

Definition request_body : value :=
  Some (JObj
          [("url", JStr "https://www.reddit.com/r/AskReddit/comments/abc123/")]).

(** A raw thread document: one post, one comment without replies. *)
Definition raw_document : json :=
  JArr
    [JObj [("data", JObj [("children", JArr
       [JObj [("data", JObj [("title", JStr "T"); ("selftext", JStr "S")])]])])];
     JObj [("data", JObj [("children", JArr
       [JObj [("kind", JStr "t1");
              ("data", JObj [("author", JStr "a"); ("body", JStr "b");
                             ("score", JNum 5); ("created_utc", JNum 100);
                             ("replies", JObj [])])]])])]].

Definition found : response :=
  {| status := 200; body_text := "[...]"; body_json := Ok raw_document |}.

(* ================================================================== *)
(** * [index.js]: the visitor counter *)
(* ================================================================== *)

(** What [getStats] finds at [STATS_FILE]. *)
Inductive stats_file : Type :=
| Absent                    (* [fs.existsSync] is false *)
| Unreadable                (* [readFileSync] or [JSON.parse] throws *)
| Holds (stats : json).     (* the text of the file parses to [stats] *)

(** Lines 80-90: both failures are caught and give a fresh counter. *)
Definition getStats (file : stats_file) : json :=
  match file with
  | Holds stats => stats
  | Absent | Unreadable => JObj [("visitorCount", JNum 0)]
  end.

(** [obj.k = v] on an ordinary object: an existing property keeps its
    place, a new one comes last. *)
Fixpoint set_property (k : string) (v : json) (props : list (string * json))
    : list (string * json) :=
  match props with
  | [] => [(k, v)]
  | (k', v') :: rest =>
      if k =? k' then (k, v) :: rest else (k', v') :: set_property k v rest
  end.

(** A number as [JSON.stringify] writes it and [JSON.parse] reads it back:
    [NaN] is written as [null]. *)
Definition stored_number (n : number) : json :=
  match n with Num z => JNum z | NaN => JNull end.

(** Lines 92-98: [written] tells whether [writeFileSync] succeeds; its
    failure is caught and leaves the file as it was.  What the file holds
    afterwards is what [JSON.stringify] wrote. *)
Definition updateStats (written : bool) (stats : json) (file : stats_file)
    : stats_file :=
  if written then Holds stats else file.

(** The two fields of the request the middleware reads. *)
Record request : Type := {
  req_method : string;
  req_path : string
}.

(** What [GET /admin/stats] sends: the 401 text, or the page around
    [${stats.visitorCount}], of which the interpolated value is kept. *)
Inductive admin_reply : Type :=
| Denied
| Page (shown : value).

Module Stats.
Section Language.

Variable ToNumberOther : json -> number.

(** [stats.visitorCount++], as [JSON.stringify(stats)] then writes
    [stats]: the old value is converted to a number and one is added.  On
    an array the property is set but not written; on [null] the read
    throws, and on any other primitive the assignment does, the module
    being strict code. *)
Definition countVisit (stats : json) : result json :=
  match stats with
  | JNull =>
      Throw (TypeError
               "Cannot read properties of null (reading 'visitorCount')")
  | JObj props =>
      let old := Credentialed.ToNumber ToNumberOther
                   (own_property "visitorCount" props) in
      Ok (JObj (set_property "visitorCount"
                  (stored_number (num_add old (Num 1))) props))
  | JArr items => Ok (JArr items)
  | JBool _ | JNum _ | JStr _ =>
      Throw (TypeError "Cannot create property 'visitorCount'")
  end.

(** Lines 101-109: the file the middleware leaves when it reaches
    [next()]; when it throws nothing has been written. *)
Definition trackVisit (written : bool) (req : request) (file : stats_file)
    : result stats_file :=
  if (req_method req =? "GET") && (req_path req =? "/") then
    stats <- countVisit (getStats file) ;;
    Ok (updateStats written stats file)
  else Ok file.

End Language.

(** Lines 213-240. *)
Definition adminStats (key : value) (file : stats_file) : result admin_reply :=
  if negb (strict_eq_string key "admin123") then Ok Denied
  else
    shown <- member (Some (getStats file)) "visitorCount" ;;
    Ok (Page shown).

End Stats.

(* ================================================================== *)
(** * Further vocabulary *)
(* ================================================================== *)

(** ** The handlers *)

Definition is_body_read (ev : event) : bool :=
  match ev with ReadText | ReadJson => true | _ => false end.

(** How many of the events satisfy [p]. *)
Definition count (p : event -> bool) (events : list event) : nat :=
  List.length (filter p events).

(** [json[1]?.data?.children ?? []]: what the handler passes to
    [extractComments]. *)
Definition comment_children (document : json) : json :=
  coalesce (opt_member (opt_member (at_index document 1) "data") "children")
    (JArr []).

(** [req.body.url] is a string, and not the empty one. *)
Definition usable_url (req_body : value) : Prop :=
  exists s, s <> "" /\ member req_body "url" = Ok (Some (JStr s)).

(** ** The visitor counter *)

(** A visit of the page: [GET /]. *)
Definition root_visit : request := {| req_method := "GET"; req_path := "/" |}.

(** [k] visits of the page one after the other, every write succeeding. *)
Fixpoint visits (tn : json -> number) (k : nat) (file : stats_file)
    : result stats_file :=
  match k with
  | O => Ok file
  | S k' =>
      file' <- Stats.trackVisit tn true root_visit file ;;
      visits tn k' file'
  end.

(** [getStats().visitorCount] *)
Definition count_of (file : stats_file) : value :=
  opt_member (Some (getStats file)) "visitorCount".

(** [stats.json] holds nothing a property can be set on. *)
Definition unusable (stats : json) : bool :=
  match stats with
  | JNull | JBool _ | JNum _ | JStr _ => true
  | JArr _ | JObj _ => false
  end.

(* ================================================================== *)
(** * The flattener: [extractComments] is its own unfolding *)
(* ================================================================== *)

Lemma json_size_pos j : 0 < json_size j.
Proof. destruct j; simpl; lia. Qed.

Lemma own_property_size k props v :
  own_property k props = Some v -> json_size v < json_size (JObj props).
Proof.
  simpl. induction props as [|[k' v'] rest IH]; simpl; [discriminate|].
  destruct (k =? k').
  - intros [= ->]. lia.
  - intros H. specialize (IH H). lia.
Qed.

Lemma opt_member_size v k w :
  opt_member v k = Some w ->
  exists j, v = Some j /\ json_size w < json_size j.
Proof.
  destruct v as [[| | | | |props]|]; simpl; try discriminate.
  intros H. eexists. split; [reflexivity|]. now apply own_property_size with k.
Qed.

Lemma In_size x items : In x items -> json_size x < json_size (JArr items).
Proof.
  simpl. induction items as [|y rest IH]; simpl; [tauto|].
  intros [->|H]; [lia|]. specialize (IH H). lia.
Qed.

Lemma truthy_Some v :
  truthy v = true -> exists j, v = Some j /\ coalesce v JNull = j.
Proof. destruct v as [[]|]; simpl; try discriminate; eauto. Qed.

Lemma nested_size child d :
  member (Some child) "data" = Ok d ->
  truthy (repliesChildren d) = true ->
  json_size (coalesce (repliesChildren d) JNull) < json_size child.
Proof.
  intros Hd Ht. destruct (truthy_Some _ Ht) as (ch & Hch & ->).
  unfold repliesChildren in Hch.
  apply opt_member_size in Hch as (j1 & H1 & L1).
  apply opt_member_size in H1 as (j2 & H2 & L2).
  apply opt_member_size in H2 as (j3 & H3 & L3).
  subst d. destruct child; simpl in Hd; try discriminate.
  injection Hd as Hd. apply own_property_size in Hd. lia.
Qed.

Lemma extractLoop_cons self child rest comments :
  extractLoop self (child :: rest) comments =
  (kind <- member (Some child) "kind" ;;
   if strict_eq_string kind "t1" then
     d <- member (Some child) "data" ;;
     b <- member d "body" ;;
     if truthy (repliesChildren d) then
       sub <- self (coalesce (repliesChildren d) JNull) ;;
       extractLoop self rest
         ((if truthy b then comments ++ [commentRecord d] else comments) ++ sub)
     else
       extractLoop self rest
         (if truthy b then comments ++ [commentRecord d] else comments)
   else extractLoop self rest comments).
Proof. reflexivity. Qed.

Lemma extractLoop_ext self1 self2 items :
  (forall child v, In child items -> json_size v < json_size child ->
                   self1 v = self2 v) ->
  forall acc, extractLoop self1 items acc = extractLoop self2 items acc.
Proof.
  induction items as [|child rest IH]; intros Hs acc; [reflexivity|].
  assert (IH' : forall acc,
             extractLoop self1 rest acc = extractLoop self2 rest acc).
  { apply IH. intros c v Hc. apply Hs. now right. }
  rewrite !extractLoop_cons.
  destruct (member (Some child) "kind") as [kind|]; [|reflexivity].
  cbn [bind]. destruct (strict_eq_string kind "t1"); [|apply IH'].
  destruct (member (Some child) "data") as [d|] eqn:Hd; [|reflexivity].
  cbn [bind]. destruct (member d "body") as [b|]; [|reflexivity].
  cbn [bind]. destruct (truthy (repliesChildren d)) eqn:Ht; [|apply IH'].
  rewrite (Hs child _ (or_introl eq_refl) (nested_size _ _ Hd Ht)).
  destruct (self2 _); cbn [bind]; [apply IH'|reflexivity].
Qed.

Lemma chars_size s c : In c (chars s) -> json_size c = 1.
Proof.
  induction s; simpl; [tauto|]. intros [<-|H]; auto.
Qed.

Lemma extractStep_ext self1 self2 children :
  (forall v, json_size v < json_size children -> self1 v = self2 v) ->
  extractStep self1 children = extractStep self2 children.
Proof.
  intros Hs. unfold extractStep.
  destruct children; simpl; try reflexivity.
  - apply extractLoop_ext. intros c v Hc Hv.
    apply chars_size in Hc. pose proof (json_size_pos v). lia.
  - apply extractLoop_ext. intros c v Hc Hv. apply Hs.
    apply In_size in Hc. lia.
Qed.

Lemma extractCommentsN_stable n : forall m j,
  json_size j <= n -> json_size j <= m ->
  extractCommentsN n j = extractCommentsN m j.
Proof.
  induction n as [|n IH]; intros m j Hn Hm.
  - pose proof (json_size_pos j). lia.
  - destruct m as [|m]; [pose proof (json_size_pos j); lia|].
    simpl. apply extractStep_ext. intros v Hv. apply IH; lia.
Qed.

Lemma extractComments_eq children :
  extractComments children = extractStep extractComments children.
Proof.
  unfold extractComments at 1.
  destruct (json_size children) as [|n] eqn:Hn.
  - pose proof (json_size_pos children). lia.
  - simpl. apply extractStep_ext. intros v Hv.
    unfold extractComments. apply extractCommentsN_stable; lia.
Qed.

Lemma bind_Ok {A B} (r : result A) (k : A -> result B) b :
  bind r k = Ok b -> exists a, r = Ok a /\ k a = Ok b.
Proof. destruct r; simpl; [eauto|discriminate]. Qed.

Lemma member_opt v k w : member v k = Ok w -> opt_member v k = w.
Proof. destruct v as [[]|]; simpl; intros; congruence. Qed.

Lemma extractLoop_acc self items : forall acc,
  extractLoop self items acc =
  (out <- extractLoop self items [] ;; Ok (acc ++ out)).
Proof.
  induction items as [|child rest IH]; intros acc.
  - simpl. now rewrite app_nil_r.
  - rewrite !extractLoop_cons.
    destruct (member (Some child) "kind") as [kind|]; [|reflexivity].
    cbn [bind]. destruct (strict_eq_string kind "t1"); [|apply IH].
    destruct (member (Some child) "data") as [d|]; [|reflexivity].
    cbn [bind]. destruct (member d "body") as [b|]; [|reflexivity].
    cbn [bind]. destruct (truthy (repliesChildren d)).
    + destruct (self _) as [sub|]; [|reflexivity]. cbn [bind].
      rewrite IH. rewrite (IH (_ ++ sub)).
      destruct (extractLoop self rest []); [|reflexivity]. cbn [bind].
      destruct (truthy b); simpl; now rewrite <- ?app_assoc.
    + rewrite IH. rewrite (IH (if truthy b then _ else _)).
      destruct (extractLoop self rest []); [|reflexivity]. cbn [bind].
      destruct (truthy b); simpl; now rewrite <- ?app_assoc.
Qed.

Lemma extractLoop_app self pre post : forall acc,
  extractLoop self (pre ++ post) acc =
  (mid <- extractLoop self pre acc ;; extractLoop self post mid).
Proof.
  induction pre as [|child rest IH]; intros acc; [reflexivity|].
  rewrite <- app_comm_cons, !extractLoop_cons.
  destruct (member (Some child) "kind") as [kind|]; [|reflexivity].
  cbn [bind]. destruct (strict_eq_string kind "t1"); [|apply IH].
  destruct (member (Some child) "data") as [d|]; [|reflexivity].
  cbn [bind]. destruct (member d "body") as [b|]; [|reflexivity].
  cbn [bind]. destruct (truthy (repliesChildren d)); [|apply IH].
  destruct (self _) as [sub|]; [|reflexivity]. cbn [bind]. apply IH.
Qed.

Lemma extractComments_JArr items :
  extractComments (JArr items) = extractLoop extractComments items [].
Proof. now rewrite extractComments_eq. Qed.

(** The records of one comment node: its own, then those of its replies. *)
Lemma extractLoop_comment child rest :
  is_comment child = true ->
  extractLoop extractComments (child :: rest) [] =
  (b <- member (data_of child) "body" ;;
   sub <- repliesOf (data_of child) ;;
   after_ <- extractComments (JArr rest) ;;
   Ok (own_record (data_of child) ++ sub ++ after_)).
Proof.
  unfold is_comment. intros Hk. rewrite extractLoop_cons.
  destruct (member (Some child) "kind") as [kind|] eqn:Hkind; [|discriminate].
  cbn [bind]. rewrite Hk.
  assert (Hd : member (Some child) "data" = Ok (data_of child)).
  { unfold data_of. destruct child; simpl in *; congruence. }
  rewrite Hd. cbn [bind].
  destruct (member (data_of child) "body") as [b|] eqn:Hb; [|reflexivity].
  cbn [bind]. unfold repliesOf, own_record.
  rewrite (member_opt _ _ _ Hb), extractComments_JArr.
  destruct (truthy (repliesChildren (data_of child))).
  - destruct (extractComments _) as [sub|]; [|reflexivity]. cbn [bind].
    rewrite extractLoop_acc.
    destruct (extractLoop extractComments rest []); [|reflexivity].
    cbn [bind]. destruct (truthy b); simpl; now rewrite <- ?app_assoc.
  - cbn [bind]. rewrite extractLoop_acc.
    destruct (extractLoop extractComments rest []); [|reflexivity].
    cbn [bind]. destruct (truthy b); reflexivity.
Qed.

Lemma extractLoop_other child rest :
  is_comment child = false ->
  extractLoop extractComments (child :: rest) [] =
  (kind <- member (Some child) "kind" ;; extractComments (JArr rest)).
Proof.
  unfold is_comment. intros Hk. rewrite extractLoop_cons, extractComments_JArr.
  destruct (member (Some child) "kind") as [kind|]; [|reflexivity].
  cbn [bind]. now rewrite Hk.
Qed.

Lemma extractComments_app pre post :
  extractComments (JArr (pre ++ post)) =
  (before_ <- extractComments (JArr pre) ;;
   after_ <- extractComments (JArr post) ;;
   Ok (before_ ++ after_)).
Proof.
  rewrite !extractComments_JArr, extractLoop_app.
  destruct (extractLoop extractComments pre []) as [mid|]; [|reflexivity].
  cbn [bind]. apply extractLoop_acc.
Qed.

Lemma extractComments_split pre child post out :
  extractComments (JArr (pre ++ child :: post)) = Ok out ->
  is_comment child = true ->
  exists b before_ replies after_,
    member (data_of child) "body" = Ok b /\
    extractComments (JArr pre) = Ok before_ /\
    repliesOf (data_of child) = Ok replies /\
    extractComments (JArr post) = Ok after_ /\
    out = before_ ++ own_record (data_of child) ++ replies ++ after_.
Proof.
  intros H Hc. rewrite extractComments_app in H.
  apply bind_Ok in H as (before_ & Hpre & H).
  apply bind_Ok in H as (mid & Hmid & [= <-]).
  rewrite extractComments_JArr, (extractLoop_comment _ _ Hc) in Hmid.
  apply bind_Ok in Hmid as (b & Hb & Hmid).
  apply bind_Ok in Hmid as (sub & Hsub & Hmid).
  apply bind_Ok in Hmid as (after_ & Hpost & [= <-]).
  now exists b, before_, sub, after_.
Qed.

Lemma comment_tree_total tree :
  comment_tree tree -> exists out, extractComments tree = Ok out.
Proof.
  induction 1 as [|props rest Hk _ [out IH]
                  |props dprops rest Hk Hd _ IHn _ [out IH]].
  - now exists [].
  - exists out. rewrite extractComments_JArr, extractLoop_other.
    + simpl. exact IH.
    + unfold is_comment. simpl. exact Hk.
  - assert (Hc : is_comment (JObj props) = true) by exact Hk.
    rewrite extractComments_JArr, (extractLoop_comment _ _ Hc).
    unfold data_of. simpl opt_member. rewrite Hd. simpl member. cbn [bind].
    unfold repliesOf.
    destruct (truthy (repliesChildren (Some (JObj dprops)))).
    + destruct (IHn eq_refl) as [sub ->]. cbn [bind]. rewrite IH. cbn [bind].
      eauto.
    + cbn [bind]. rewrite IH. cbn [bind]. eauto.
Qed.

(** C1.  The output of the flattener is the pre-order of the tree.  On
    every well-formed comment tree [extractComments] returns a flat list;
    and whenever it returns on a listing, for each comment [child] of the
    listing the output is: the records of the siblings before it, then its
    own record, then the records of all its replies (themselves flattened
    by the same function), then the records of the siblings after it. *)
Theorem extractComments_preorder :
  (forall tree, comment_tree tree -> exists out, extractComments tree = Ok out)
  /\
  (forall pre child post out,
     extractComments (JArr (pre ++ child :: post)) = Ok out ->
     is_comment child = true ->
     exists before_ replies after_,
       extractComments (JArr pre) = Ok before_ /\
       repliesOf (data_of child) = Ok replies /\
       extractComments (JArr post) = Ok after_ /\
       out = before_ ++ own_record (data_of child) ++ replies ++ after_).
Proof.
  split; [exact comment_tree_total|].
  intros pre child post out H Hc.
  destruct (extractComments_split _ _ _ _ H Hc)
    as (b & before_ & replies & after_ & _ & H1 & H2 & H3 & H4).
  now exists before_, replies, after_.
Qed.

Lemma is_comment_data child :
  is_comment child = true -> member (Some child) "data" = Ok (data_of child).
Proof.
  unfold is_comment, data_of. destruct child; simpl; congruence.
Qed.

Lemma truthy_body_facts d :
  truthy (opt_member d "body") = true ->
  exists b, opt_member d "body" = Some b /\ b <> JStr "" /\ b <> JNull /\
            body (commentRecord d) = b.
Proof.
  unfold commentRecord. simpl.
  destruct (opt_member d "body") as [b|]; [|discriminate].
  intros Ht. exists b. repeat split.
  - intros ->. discriminate.
  - intros ->. discriminate.
  - destruct b; simpl in *; congruence.
Qed.

Lemma own_record_emitted child r :
  In r (own_record (data_of child)) -> emitted_by child r.
Proof.
  unfold own_record.
  destruct (truthy (opt_member (data_of child) "body")) eqn:Ht; [|intros []].
  intros [<-|[]].
  destruct (truthy_body_facts _ Ht) as (b & H1 & H2 & H3 & H4).
  exists b. auto.
Qed.

Lemma loop_records items : forall out r,
  extractLoop extractComments items [] = Ok out -> In r out ->
  exists child, In child items /\ is_comment child = true /\
    (In r (own_record (data_of child)) \/
     exists sub, repliesOf (data_of child) = Ok sub /\ In r sub).
Proof.
  induction items as [|child rest IH]; intros out r H Hin.
  - injection H as <-. destruct Hin.
  - destruct (is_comment child) eqn:Hc.
    + rewrite (extractLoop_comment _ _ Hc) in H.
      apply bind_Ok in H as (b & Hb & H).
      apply bind_Ok in H as (sub & Hsub & H).
      apply bind_Ok in H as (after_ & Hpost & [= <-]).
      rewrite !in_app_iff in Hin. destruct Hin as [Hin|[Hin|Hin]].
      * exists child. split; [now left|]. auto.
      * exists child. split; [now left|]. split; [assumption|]. right. eauto.
      * rewrite extractComments_JArr in Hpost.
        destruct (IH _ _ Hpost Hin) as (c & Hc1 & Hc2).
        exists c. split; [now right|assumption].
    + rewrite (extractLoop_other _ _ Hc) in H.
      apply bind_Ok in H as (k & _ & H). rewrite extractComments_JArr in H.
      destruct (IH _ _ H Hin) as (c & Hc1 & Hc2).
      exists c. split; [now right|assumption].
Qed.

Lemma chars_not_comment s c : In c (chars s) -> is_comment c = false.
Proof. induction s; simpl; [tauto|]. intros [<-|H]; auto. Qed.

Lemma records_from_comments n : forall listing out r,
  json_size listing <= n ->
  extractComments listing = Ok out -> In r out ->
  exists child, comment_in listing child /\ emitted_by child r.
Proof.
  induction n as [|n IH]; intros listing out r Hn H Hin.
  - pose proof (json_size_pos listing). lia.
  - rewrite extractComments_eq in H. unfold extractStep in H.
    apply bind_Ok in H as (items & Hit & H).
    destruct (loop_records _ _ _ H Hin) as (child & Hc & Hk & Hr).
    destruct Hr as [Hown|(sub & Hsub & Hr)].
    + exists child. split; [|now apply own_record_emitted].
      now apply comment_here with items.
    + unfold repliesOf in Hsub.
      destruct (truthy (repliesChildren (data_of child))) eqn:Ht;
        [|injection Hsub as <-; destruct Hr].
      destruct (truthy_Some _ Ht) as (nested & Hnested & Hco).
      rewrite Hco in Hsub.
      assert (Hsz : json_size nested <= n).
      { pose proof (nested_size _ _ (is_comment_data _ Hk) Ht) as L.
        rewrite Hco in L.
        destruct listing; simpl in Hit; try discriminate.
        - injection Hit as <-. apply chars_not_comment in Hc. congruence.
        - injection Hit as <-. apply In_size in Hc. lia. }
      destruct (IH _ _ _ Hsz Hsub Hr) as (c & Hc1 & Hc2).
      exists c. split; [|assumption].
      apply comment_below with child nested; try assumption.
      now apply comment_here with items.
Qed.

Lemma extractComments_single child :
  is_comment child = true ->
  extractComments (JArr [child]) =
  (b <- member (data_of child) "body" ;;
   sub <- repliesOf (data_of child) ;;
   Ok (own_record (data_of child) ++ sub)).
Proof.
  intros Hc. rewrite extractComments_JArr, (extractLoop_comment _ _ Hc).
  destruct (member (data_of child) "body"); [|reflexivity]. cbn [bind].
  destruct (repliesOf (data_of child)); [|reflexivity]. cbn [bind].
  change (extractComments (JArr [])) with (@Ok (list comment) []).
  cbn [bind]. now rewrite app_nil_r.
Qed.

Lemma bodiless_comment child b :
  is_comment child = true ->
  member (data_of child) "body" = Ok b -> truthy b = false ->
  own_record (data_of child) = [] /\
  extractComments (JArr [child]) = repliesOf (data_of child).
Proof.
  intros Hc Hb Ht.
  assert (Ho : own_record (data_of child) = []).
  { unfold own_record. now rewrite (member_opt _ _ _ Hb), Ht. }
  split; [assumption|].
  rewrite (extractComments_single _ Hc), Hb, Ho. cbn [bind].
  now destruct (repliesOf (data_of child)).
Qed.

(** C2.  Every record of the output is the record of a node of kind
    ["t1"] of the tree, whose body is present and is neither null nor the
    empty string.  A ["t1"] node with no body contributes no record of its
    own, and what the flattener returns for it is exactly the records of
    its nested replies.  For the tree A ("hi") with the replies B ("yo")
    and C (no body), and D ("hey") under C, the output is [A; B; D]. *)
Theorem records_only_from_comments_with_body :
  (forall listing out r,
     extractComments listing = Ok out -> In r out ->
     exists child, comment_in listing child /\ emitted_by child r)
  /\
  (forall child b,
     is_comment child = true ->
     member (data_of child) "body" = Ok b -> truthy b = false ->
     own_record (data_of child) = [] /\
     extractComments (JArr [child]) = repliesOf (data_of child))
  /\
  extractComments (JArr [node_A]) =
  Ok [record_of "A" "hi"; record_of "B" "yo"; record_of "D" "hey"].
Proof.
  split; [|split].
  - intros listing out r.
    now apply records_from_comments with (json_size listing).
  - exact bodiless_comment.
  - reflexivity.
Qed.

(** The record of a comment with a body, where the comment stands in its
    listing. *)
Lemma record_in_place pre child post out :
  extractComments (JArr (pre ++ child :: post)) = Ok out ->
  is_comment child = true ->
  truthy (opt_member (data_of child) "body") = true ->
  exists before_ rest,
    extractComments (JArr pre) = Ok before_ /\
    out = before_ ++ commentRecord (data_of child) :: rest.
Proof.
  intros H Hc Ht.
  destruct (extractComments_split _ _ _ _ H Hc)
    as (b & before_ & replies & after_ & _ & H1 & _ & _ & ->).
  exists before_, (replies ++ after_). split; [exact H1|].
  unfold own_record. now rewrite Ht.
Qed.

(** C7.  A comment with a body, anywhere in a listing the flattener
    returns on: after the records of the siblings before it comes its
    record, in which the body is the node's body; a missing or null author
    gives ["[deleted]"], a missing or null score gives [0], a missing or
    null [created_utc] gives [null]; any other value of these fields is
    passed through unchanged. *)
Theorem record_defaults pre child post out :
  extractComments (JArr (pre ++ child :: post)) = Ok out ->
  is_comment child = true ->
  truthy (opt_member (data_of child) "body") = true ->
  exists before_ r rest,
    extractComments (JArr pre) = Ok before_ /\
    out = before_ ++ r :: rest /\
    Some (body r) = opt_member (data_of child) "body" /\
    (nullish (opt_member (data_of child) "author") = true ->
     author r = JStr "[deleted]") /\
    (nullish (opt_member (data_of child) "score") = true ->
     score r = JNum 0) /\
    (nullish (opt_member (data_of child) "created_utc") = true ->
     created_utc r = JNull) /\
    (forall v, opt_member (data_of child) "author" = Some v ->
               nullish (Some v) = false -> author r = v) /\
    (forall v, opt_member (data_of child) "score" = Some v ->
               nullish (Some v) = false -> score r = v) /\
    (forall v, opt_member (data_of child) "created_utc" = Some v ->
               nullish (Some v) = false -> created_utc r = v).
Proof.
  intros H Hc Ht.
  destruct (record_in_place _ _ _ _ H Hc Ht) as (before_ & rest & Hb & ->).
  exists before_, (commentRecord (data_of child)), rest.
  split; [exact Hb|]. split; [reflexivity|]. unfold commentRecord. simpl.
  split.
  { destruct (truthy_body_facts _ Ht) as (b & -> & _ & Hn & _).
    destruct b; simpl; congruence. }
  repeat split.
  - destruct (opt_member _ "author") as [[]|]; simpl; intros; congruence.
  - destruct (opt_member _ "score") as [[]|]; simpl; intros; congruence.
  - destruct (opt_member _ "created_utc") as [[]|]; simpl; intros; congruence.
  - intros v -> Hv. destruct v; simpl in *; congruence.
  - intros v -> Hv. destruct v; simpl in *; congruence.
  - intros v -> Hv. destruct v; simpl in *; congruence.
Qed.

(** C9.  A ["t1"] node whose body is the empty string contributes no
    record of its own: alone in a listing it gives what its replies give,
    and anywhere in a listing the output is the records of the siblings
    before it, those of its replies and those of the siblings after it.
    The empty string as the author of a comment with a body is kept in the
    record rather than replaced by ["[deleted]"]. *)
Theorem empty_body_dropped_empty_author_kept :
  (forall child,
     is_comment child = true ->
     opt_member (data_of child) "body" = Some (JStr "") ->
     own_record (data_of child) = [] /\
     extractComments (JArr [child]) = repliesOf (data_of child))
  /\
  (forall pre child post out,
     extractComments (JArr (pre ++ child :: post)) = Ok out ->
     is_comment child = true ->
     opt_member (data_of child) "body" = Some (JStr "") ->
     exists before_ replies after_,
       extractComments (JArr pre) = Ok before_ /\
       repliesOf (data_of child) = Ok replies /\
       extractComments (JArr post) = Ok after_ /\
       out = before_ ++ replies ++ after_)
  /\
  (forall pre child post out,
     extractComments (JArr (pre ++ child :: post)) = Ok out ->
     is_comment child = true ->
     truthy (opt_member (data_of child) "body") = true ->
     opt_member (data_of child) "author" = Some (JStr "") ->
     exists before_ r rest,
       extractComments (JArr pre) = Ok before_ /\
       out = before_ ++ r :: rest /\ author r = JStr "").
Proof.
  split; [|split].
  - intros child Hc Hb. apply bodiless_comment with (Some (JStr "")); auto.
    destruct (data_of child) as [[]|]; simpl in *; try discriminate.
    now rewrite Hb.
  - intros pre child post out H Hc Hb.
    destruct (extractComments_split _ _ _ _ H Hc)
      as (b & before_ & replies & after_ & _ & H1 & H2 & H3 & ->).
    exists before_, replies, after_. repeat split; auto.
    unfold own_record. now rewrite Hb.
  - intros pre child post out H Hc Ht Ha.
    destruct (record_in_place _ _ _ _ H Hc Ht) as (before_ & rest & Hb & ->).
    exists before_, (commentRecord (data_of child)), rest.
    split; [exact Hb|]. split; [reflexivity|].
    unfold commentRecord. simpl. now rewrite Ha.
Qed.

(** The tree of the example is a well-formed comment tree. *)
Lemma example_tree_well_formed : comment_tree (JArr [node_A]).
Proof.
  assert (HD : comment_tree (JArr [node_D])).
  { eapply tree_comment; try reflexivity; [discriminate|constructor]. }
  assert (HBC : comment_tree (JArr [node_B; node_C])).
  { eapply tree_comment; try reflexivity; [discriminate|].
    eapply tree_comment; try reflexivity; [|constructor].
    intros _. exact HD. }
  eapply tree_comment; try reflexivity; [|constructor].
  intros _. exact HBC.
Qed.

Lemma extractComments_preorder_witness :
  comment_tree (JArr [node_A]) /\
  is_comment node_A = true /\
  (exists out, extractComments (JArr [node_A]) = Ok out) /\
  (exists before_ replies after_,
     extractComments (JArr []) = Ok before_ /\
     repliesOf (data_of node_A) = Ok replies /\
     extractComments (JArr []) = Ok after_ /\
     [record_of "A" "hi"; record_of "B" "yo"; record_of "D" "hey"] =
     before_ ++ own_record (data_of node_A) ++ replies ++ after_).
Proof.
  split; [exact example_tree_well_formed|]. split; [reflexivity|]. split.
  - exact (proj1 extractComments_preorder _ example_tree_well_formed).
  - exact (proj2 extractComments_preorder [] node_A []
             [record_of "A" "hi"; record_of "B" "yo"; record_of "D" "hey"]
             eq_refl eq_refl).
Defined.

Lemma records_only_from_comments_with_body_witness :
  (exists child,
     comment_in (JArr [node_A]) child /\
     emitted_by child (record_of "D" "hey")) /\
  (is_comment node_C = true /\
   member (data_of node_C) "body" = Ok None /\
   own_record (data_of node_C) = [] /\
   extractComments (JArr [node_C]) = repliesOf (data_of node_C)).
Proof.
  split.
  - exact (proj1 records_only_from_comments_with_body (JArr [node_A])
             [record_of "A" "hi"; record_of "B" "yo"; record_of "D" "hey"]
             (record_of "D" "hey") eq_refl
             (or_intror (or_intror (or_introl eq_refl)))).
  - split; [reflexivity|]. split; [reflexivity|].
    exact (proj1 (proj2 records_only_from_comments_with_body) node_C None
             eq_refl eq_refl eq_refl).
Defined.

(** A comment with a body and nothing else, after the comment B. *)
Lemma record_defaults_witness :
  let bare := t1 [("body", JStr "hi")] (JStr "") in
  let anonymous :=
    {| author := JStr "[deleted]"; body := JStr "hi"; score := JNum 0;
       created_utc := JNull |} in
  extractComments (JArr [node_B; bare]) =
    Ok [record_of "B" "yo"; anonymous] /\
  exists before_ r rest,
    extractComments (JArr [node_B]) = Ok before_ /\
    [record_of "B" "yo"; anonymous] = before_ ++ r :: rest /\
    author r = JStr "[deleted]" /\ score r = JNum 0 /\ created_utc r = JNull.
Proof.
  intros bare anonymous. split; [reflexivity|].
  destruct (record_defaults [node_B] bare [] _ eq_refl eq_refl eq_refl)
    as (before_ & r & rest & Hb & E & _ & Ha & Hs & Hc & _).
  exists before_, r, rest. split; [exact Hb|]. split; [exact E|].
  split; [|split].
  - exact (Ha eq_refl).
  - exact (Hs eq_refl).
  - exact (Hc eq_refl).
Defined.

Lemma empty_body_dropped_empty_author_kept_witness :
  let blank := t1 [("author", JStr "x"); ("body", JStr "")] (listing [node_D]) in
  let anonymous := t1 [("author", JStr ""); ("body", JStr "hi")] (JStr "") in
  (own_record (data_of blank) = [] /\
   extractComments (JArr [blank]) = Ok [record_of "D" "hey"]) /\
  (exists before_ replies after_,
     extractComments (JArr [node_B]) = Ok before_ /\
     repliesOf (data_of blank) = Ok replies /\
     extractComments (JArr []) = Ok after_ /\
     [record_of "B" "yo"; record_of "D" "hey"] = before_ ++ replies ++ after_) /\
  (exists before_ r rest,
     extractComments (JArr [node_B]) = Ok before_ /\
     [record_of "B" "yo"; record_of "" "hi"] = before_ ++ r :: rest /\
     author r = JStr "").
Proof.
  intros blank anonymous. split; [|split].
  - destruct (proj1 empty_body_dropped_empty_author_kept blank
                eq_refl eq_refl) as [H1 H2].
    split; [exact H1|]. rewrite H2. reflexivity.
  - exact (proj1 (proj2 empty_body_dropped_empty_author_kept)
             [node_B] blank [] [record_of "B" "yo"; record_of "D" "hey"]
             eq_refl eq_refl eq_refl).
  - exact (proj2 (proj2 empty_body_dropped_empty_author_kept)
             [node_B] anonymous [] [record_of "B" "yo"; record_of "" "hi"]
             eq_refl eq_refl eq_refl eq_refl).
Defined.

(* ================================================================== *)
(** * The resolver: strings, the matcher and its deterministic readings *)
(* ================================================================== *)

(** ** Strings *)
Lemma append_nil_r s : (s ++ "")%string = s.
Proof. induction s; simpl; congruence. Qed.

Lemma append_assoc a b c : ((a ++ b) ++ c)%string = (a ++ (b ++ c))%string.
Proof. induction a; simpl; congruence. Qed.

Lemma length_append a b :
  String.length (a ++ b) = String.length a + String.length b.
Proof. induction a; simpl; congruence. Qed.

Lemma substring_0_all s : substring 0 (String.length s) s = s.
Proof. induction s; simpl; congruence. Qed.

Lemma substring_0_app a b :
  substring 0 (String.length a) (a ++ b) = a.
Proof. induction a; simpl; [now destruct b|congruence]. Qed.

Lemma substring_skip_app a b n :
  substring (String.length a) n (a ++ b) = substring 0 n b.
Proof. induction a; simpl; auto. Qed.

Lemma consumed_app a b : consumed (a ++ b) b = a.
Proof.
  unfold consumed. rewrite length_append.
  replace (String.length a + String.length b - String.length b)
    with (String.length a) by lia.
  apply substring_0_app.
Qed.

Lemma take_drop p s : (take_while p s ++ drop_while p s)%string = s.
Proof.
  induction s as [|c s IH]; simpl; [reflexivity|].
  destruct (p c); simpl; congruence.
Qed.

Lemma all_take_while p s : all_chars p (take_while p s) = true.
Proof.
  induction s as [|c s IH]; simpl; [reflexivity|].
  destruct (p c) eqn:E; simpl; [now rewrite E|reflexivity].
Qed.

Lemma starts_drop_while p s : starts_with p (drop_while p s) = false.
Proof.
  induction s as [|c s IH]; simpl; [reflexivity|].
  destruct (p c) eqn:E; simpl; auto.
Qed.

Lemma take_while_app p x y :
  all_chars p x = true -> starts_with p y = false ->
  take_while p (x ++ y) = x /\ drop_while p (x ++ y) = y.
Proof.
  intros Hx Hy. induction x as [|c x IH]; simpl in *.
  - destruct y as [|d y]; simpl in *; [auto|]. rewrite Hy. auto.
  - apply andb_true_iff in Hx as [Hc Hx]. rewrite Hc.
    destruct (IH Hx) as [-> ->]. auto.
Qed.

(** ** The matcher *)
Lemma exec_lit w : forall s caps k,
  exec (lit w) s caps k =
  match strip char_is w s with Some rest => k rest caps | None => None end.
Proof.
  induction w as [|a w IH]; intros s caps k; simpl; [reflexivity|].
  destruct s as [|c s]; [reflexivity|].
  destruct (char_is a c); [apply IH|reflexivity].
Qed.

Lemma exec_lit_i w : forall s caps k,
  exec (lit_i w) s caps k =
  match strip char_is_i w s with Some rest => k rest caps | None => None end.
Proof.
  induction w as [|a w IH]; intros s caps k; simpl; [reflexivity|].
  destruct s as [|c s]; [reflexivity|].
  destruct (char_is_i a c); [apply IH|reflexivity].
Qed.

Lemma star_first p k s m :
  k (drop_while p s) = Some m -> star p k s = Some m.
Proof.
  induction s as [|c s IH]; simpl; [auto|].
  destruct (p c); [|auto]. intros H. now rewrite (IH H).
Qed.

Lemma star_reject p k s :
  (forall c s', p c = true -> k (String c s') = None) ->
  star p k s = k (drop_while p s).
Proof.
  intros Hk. induction s as [|c s IH]; simpl; [reflexivity|].
  destruct (p c) eqn:E; [|reflexivity].
  rewrite IH. destruct (k (drop_while p s)); [reflexivity|]. now apply Hk.
Qed.

Lemma consumed_run p c s :
  p c = true ->
  consumed (String c s) (drop_while p s) = take_while p (String c s).
Proof.
  intros E. simpl take_while. rewrite E.
  rewrite <- (take_drop p s) at 1.
  change (String c (take_while p s ++ drop_while p s))%string
    with (String c (take_while p s) ++ drop_while p s)%string.
  apply consumed_app.
Qed.

(** A captured run, when the continuation cannot resume inside the run:
    either it always succeeds, or it rejects what starts in the class. *)
Lemma exec_run p s caps k :
  (forall s' caps', k s' caps' <> None) \/
  (forall c s' caps', p c = true -> k (String c s') caps' = None) ->
  exec (Group (Plus p)) s caps k =
  match at_run p s with
  | Some (rest, g) => k rest (caps ++ g)
  | None => None
  end.
Proof.
  intros Hk. unfold at_run. destruct s as [|c s]; [reflexivity|].
  simpl exec. simpl starts_with. destruct (p c) eqn:E; [|reflexivity].
  simpl drop_while. rewrite E. rewrite <- (consumed_run p c s E).
  destruct Hk as [Hk|Hk].
  - destruct (k (drop_while p s)
                (caps ++ [consumed (String c s) (drop_while p s)])) eqn:F.
    + now apply star_first.
    + now apply Hk in F.
  - rewrite star_reject; [reflexivity|]. intros c' s' Hc'. now apply Hk.
Qed.

Lemma exec_Seq r1 r2 s caps k :
  exec (Seq r1 r2) s caps k =
  exec r1 s caps (fun s' caps' => exec r2 s' caps' k).
Proof. reflexivity. Qed.

Lemma exec_thread p s caps :
  exec (Seq (lit_i "/comments/") (Group (Plus p))) s caps final =
  match at_thread p s with
  | Some (rest, g) => Some (rest, caps ++ g)
  | None => None
  end.
Proof.
  unfold at_thread. rewrite exec_Seq, exec_lit_i.
  destruct (strip char_is_i "/comments/" s) as [s1|]; [|reflexivity].
  rewrite exec_run.
  - unfold final. now destruct (at_run p s1) as [[rest g]|].
  - left. discriminate.
Qed.

Lemma char_is_i_slash c : char_is_i "/" c = Ascii.eqb c "/".
Proof.
  destruct c as [[] [] [] [] [] [] [] []]; reflexivity.
Qed.

Lemma strip_slash_first w s c :
  not_slash c = true ->
  strip char_is_i (String "/" w) (String c s) = None.
Proof.
  unfold not_slash. intros H. simpl. rewrite char_is_i_slash.
  now destruct (Ascii.eqb c "/").
Qed.

Lemma exec_subreddit_thread s :
  exec re_subreddit_thread s [] final = at_subreddit_thread s.
Proof.
  unfold re_subreddit_thread, at_subreddit_thread.
  rewrite exec_Seq, exec_lit_i.
  destruct (strip char_is_i "/r/" s) as [s1|]; [|reflexivity].
  rewrite exec_Seq, exec_run.
  - unfold at_run. destruct (starts_with not_slash s1); [|reflexivity].
    rewrite exec_thread. simpl app.
    now destruct (at_thread not_slash (drop_while not_slash s1)) as [[rest g]|].
  - right. intros c s' caps' Hc. rewrite exec_Seq, exec_lit_i.
    now rewrite strip_slash_first.
Qed.

Lemma exec_trailing_slashes s :
  exec re_trailing_slashes s [] final = at_trailing_slashes s.
Proof.
  unfold re_trailing_slashes, at_trailing_slashes. rewrite exec_Seq.
  destruct s as [|c s]; [reflexivity|]. simpl exec. simpl starts_with.
  simpl all_chars. destruct (char_is "/" c); [|reflexivity]. simpl andb.
  rewrite star_reject.
  - induction s as [|d s IH]; [reflexivity|]. simpl.
    destruct (char_is "/" d); [exact IH|reflexivity].
  - reflexivity.
Qed.

Lemma search_find r at_ :
  (forall s, exec r s [] final = at_ s) ->
  forall s skipped, search r skipped s = find at_ skipped s.
Proof.
  intros H. induction s as [|c s IH]; intros skipped; simpl;
    fold final; rewrite H; destruct (at_ _) as [[rest caps]|]; auto.
Qed.

Lemma str_match_thread p s :
  str_match s (Seq (lit_i "/comments/") (Group (Plus p))) =
  find (at_thread p) "" s.
Proof.
  apply search_find. intros s'. rewrite exec_thread.
  now destruct (at_thread p s') as [[rest g]|].
Qed.

Lemma str_match_subreddit_thread s :
  str_match s re_subreddit_thread = find at_subreddit_thread "" s.
Proof. apply search_find, exec_subreddit_thread. Qed.

(** ** The leftmost match *)
Lemma find_step at_ skipped c s :
  at_ (String c s) = None ->
  find at_ skipped (String c s) = find at_ (skipped ++ String c "")%string s.
Proof. intros H. simpl. now rewrite H. Qed.

Lemma find_here at_ skipped s rest caps :
  at_ s = Some (rest, caps) ->
  find at_ skipped s =
  Some {| before := skipped; whole := consumed s rest;
          groups := caps; after := rest |}.
Proof. intros H. destruct s; simpl; now rewrite H. Qed.

Lemma find_Some at_ s : forall skipped m,
  find at_ skipped s = Some m ->
  exists pre rest,
    s = (pre ++ rest)%string /\ at_ rest = Some (after m, groups m) /\
    before m = (skipped ++ pre)%string /\ whole m = consumed rest (after m).
Proof.
  induction s as [|c s IH]; intros skipped m; simpl.
  - destruct (at_ "") as [[rest caps]|] eqn:E; [|discriminate].
    intros [= <-]. exists "", "". simpl. now rewrite append_nil_r.
  - destruct (at_ (String c s)) as [[rest caps]|] eqn:E.
    + intros [= <-]. exists "", (String c s). simpl. now rewrite append_nil_r.
    + intros H. destruct (IH _ _ H) as (pre & rest & -> & H1 & H2 & H3).
      exists (String c pre), rest. rewrite H2, append_assoc. auto.
Qed.



(** A run of characters on which no match can start is skipped. *)
Lemma find_skip at_ p x : forall skipped y,
  (forall c s, p c = true -> at_ (String c s) = None) ->
  all_chars p x = true ->
  find at_ skipped (x ++ y) = find at_ (skipped ++ x)%string y.
Proof.
  induction x as [|c x IH]; intros skipped y Hat Hx; simpl in *.
  - now rewrite append_nil_r.
  - apply andb_true_iff in Hx as [Hc Hx]. rewrite (Hat _ _ Hc), IH by assumption.
    now rewrite append_assoc.
Qed.

(** ** [split], trailing slashes, [endsWith] *)
Lemma all_slash_rstrip s : rstrip s = "" <-> all_chars (char_is "/") s = true.
Proof.
  induction s as [|c s IH]; simpl; [tauto|]. unfold char_is at 1.
  destruct (Ascii.eqb c "/"); simpl.
  - destruct (String.eqb_spec (rstrip s) "") as [E|E].
    + tauto.
    + split; [discriminate|]. intros H. now apply IH in H.
  - split; discriminate.
Qed.

Lemma replace_trailing s : forall skipped,
  match find at_trailing_slashes skipped s with
  | Some m => (before m ++ "" ++ after m)%string
  | None => (skipped ++ s)%string
  end = (skipped ++ rstrip s)%string.
Proof.
  induction s as [|c s IH]; intros skipped; [reflexivity|].
  destruct (at_trailing_slashes (String c s)) as [[rest caps]|] eqn:E.
  - rewrite (find_here _ _ _ _ _ E). unfold at_trailing_slashes in E.
    destruct (starts_with (char_is "/") (String c s) &&
              all_chars (char_is "/") (String c s)) eqn:F; [|discriminate].
    injection E as <- <-.
    apply andb_true_iff in F as [_ F]. apply all_slash_rstrip in F.
    now rewrite F.
  - rewrite (find_step _ _ _ _ E).
    replace (skipped ++ String c s)%string
      with ((skipped ++ String c "") ++ s)%string
      by now rewrite append_assoc.
    rewrite IH, append_assoc. simpl. f_equal.
    unfold at_trailing_slashes in E. simpl in E. unfold char_is at 1 2 in E.
    destruct (Ascii.eqb c "/"); simpl in *; [|reflexivity].
    destruct (String.eqb_spec (rstrip s) "") as [F|F]; [|reflexivity].
    apply all_slash_rstrip in F. rewrite F in E. discriminate.
Qed.

Lemma cleaned_eq userUrl : cleaned userUrl = rstrip (split_first "?" userUrl).
Proof.
  unfold cleaned, str_replace.
  rewrite (search_find _ _ exec_trailing_slashes).
  apply (replace_trailing _ "").
Qed.


Lemma split_first_no_query s : no_query (split_first "?" s) = true.
Proof.
  unfold no_query. induction s as [|c s IH]; simpl; [reflexivity|].
  destruct (Ascii.eqb c "?") eqn:E; simpl; [reflexivity|]. now rewrite E.
Qed.


Lemma all_chars_app p a b :
  all_chars p (a ++ b) = all_chars p a && all_chars p b.
Proof. induction a; simpl; [reflexivity|]. now rewrite IHa, andb_assoc. Qed.

Lemma rstrip_all p s : all_chars p s = true -> all_chars p (rstrip s) = true.
Proof.
  induction s as [|c s IH]; simpl; [reflexivity|].
  intros H. apply andb_true_iff in H as [Hc Hs].
  destruct (Ascii.eqb c "/" && (rstrip s =? "")); simpl; [reflexivity|].
  now rewrite Hc, IH.
Qed.



Lemma substring_split s : forall n,
  n <= String.length s ->
  s = (substring 0 n s ++ substring n (String.length s - n) s)%string.
Proof.
  induction s as [|c s IH]; intros n Hn; simpl in *.
  - destruct n; reflexivity.
  - destruct n as [|n]; simpl.
    + now rewrite substring_0_all.
    + f_equal. apply IH. lia.
Qed.

Lemma endsWith_iff s suffix :
  endsWith s suffix = true <-> exists pre, s = (pre ++ suffix)%string.
Proof.
  unfold endsWith. split.
  - intros H. apply andb_true_iff in H as [L E].
    apply Nat.leb_le in L. apply String.eqb_eq in E.
    exists (substring 0 (String.length s - String.length suffix) s).
    pose proof (substring_split s (String.length s - String.length suffix))
      as H.
    replace (String.length s - (String.length s - String.length suffix))
      with (String.length suffix) in H by lia.
    rewrite E in H. apply H. lia.
  - intros [pre ->]. rewrite length_append. apply andb_true_iff. split.
    + apply Nat.leb_le. lia.
    + replace (String.length pre + String.length suffix - String.length suffix)
        with (String.length pre) by lia.
      rewrite substring_skip_app, substring_0_all. apply String.eqb_refl.
Qed.

Lemma with_json_suffix_ends c : endsWith (with_json_suffix c) ".json" = true.
Proof.
  unfold with_json_suffix. destruct (endsWith c ".json") eqn:E; simpl.
  - exact E.
  - apply endsWith_iff. now exists c.
Qed.

Lemma with_json_suffix_cases c :
  (endsWith c ".json" = true /\ with_json_suffix c = c) \/
  (endsWith c ".json" = false /\ with_json_suffix c = (c ++ ".json")%string).
Proof. unfold with_json_suffix. destruct (endsWith c ".json"); auto. Qed.


Lemma normalised_no_query u : no_query (with_json_suffix (cleaned u)) = true.
Proof.
  assert (H : no_query (cleaned u) = true).
  { rewrite cleaned_eq. apply rstrip_all, split_first_no_query. }
  destruct (with_json_suffix_cases (cleaned u)) as [[_ ->]|[_ ->]]; [exact H|].
  unfold no_query in *. now rewrite all_chars_app, H.
Qed.


(** ** The shape of the matches *)
Lemma at_run_Some p s rest g :
  at_run p s = Some (rest, g) ->
  exists id, g = [id] /\ id <> "" /\ all_chars p id = true /\
             s = (id ++ rest)%string /\ starts_with p rest = false.
Proof.
  unfold at_run. destruct (starts_with p s) eqn:E; [|discriminate].
  intros [= <- <-]. exists (take_while p s). repeat split.
  - destruct s as [|c s]; simpl in *; [discriminate|]. now rewrite E.
  - apply all_take_while.
  - symmetry. apply take_drop.
  - apply starts_drop_while.
Qed.

Lemma at_run_app p id y :
  id <> "" -> all_chars p id = true -> starts_with p y = false ->
  at_run p (id ++ y) = Some (y, [id]).
Proof.
  intros Hne Hall Hy. unfold at_run.
  destruct (take_while_app p id y Hall Hy) as [-> ->].
  destruct id as [|c id]; [contradiction|]. simpl in *.
  apply andb_true_iff in Hall as [-> _]. reflexivity.
Qed.

Lemma at_thread_Some p s rest g :
  at_thread p s = Some (rest, g) ->
  exists s1 id, strip char_is_i "/comments/" s = Some s1 /\
    g = [id] /\ id <> "" /\ all_chars p id = true /\
    s1 = (id ++ rest)%string /\ starts_with p rest = false.
Proof.
  unfold at_thread.
  destruct (strip char_is_i "/comments/" s) as [s1|]; [|discriminate].
  intros H. apply at_run_Some in H as (id & H). exists s1, id. tauto.
Qed.




Lemma at_thread_not_slash p c s :
  not_slash c = true -> at_thread p (String c s) = None.
Proof. intros H. unfold at_thread. now rewrite strip_slash_first. Qed.

Lemma at_subreddit_thread_not_slash c s :
  not_slash c = true -> at_subreddit_thread (String c s) = None.
Proof. intros H. unfold at_subreddit_thread. now rewrite strip_slash_first. Qed.

Lemma at_subreddit_thread_slash_run x :
  all_chars not_slash x = true -> at_subreddit_thread (String "/" x) = None.
Proof.
  intros H. unfold at_subreddit_thread.
  destruct x as [|c1 [|c2 x]]; simpl; try reflexivity.
  - now destruct (char_is_i "r" c1).
  - destruct (char_is_i "r" c1); [|reflexivity].
    simpl in H. apply andb_true_iff in H as [_ H].
    apply andb_true_iff in H as [H _]. rewrite char_is_i_slash.
    unfold not_slash in H. now destruct (Ascii.eqb c2 "/").
Qed.

Ltac skip_prefix := repeat (rewrite find_step by reflexivity); simpl append.













Lemma strip_char_is w : forall s rest,
  strip char_is w s = Some rest -> s = (w ++ rest)%string.
Proof.
  induction w as [|a w IH]; intros s rest; simpl.
  - now intros [= ->].
  - destruct s as [|c s]; [discriminate|]. unfold char_is at 1.
    destruct (Ascii.eqb_spec c a) as [->|]; [|discriminate].
    intros H. now rewrite (IH _ _ H).
Qed.

Lemma exec_host w s :
  exec (lit w) s []
    (fun s' caps' =>
       exec (lit ".reddit.com") s' (caps' ++ [consumed s s']) final) =
  at_host w s.
Proof.
  rewrite exec_lit. unfold at_host.
  destruct (strip char_is w s) as [s1|] eqn:E; [|reflexivity].
  rewrite exec_lit. apply strip_char_is in E as ->. rewrite consumed_app.
  reflexivity.
Qed.

Lemma exec_alt_host s : exec re_alt_host s [] final = at_alt_host s.
Proof.
  unfold re_alt_host, at_alt_host. rewrite exec_Seq.
  cbn [exec]. rewrite !exec_host. reflexivity.
Qed.

Lemma at_host_Some w s rest g :
  at_host w s = Some (rest, g) ->
  s = (w ++ ".reddit.com" ++ rest)%string.
Proof.
  unfold at_host. destruct (strip char_is w s) as [s1|] eqn:E; [|discriminate].
  destruct (strip char_is ".reddit.com" s1) as [r|] eqn:F; [|discriminate].
  intros [= <- _]. apply strip_char_is in E, F. congruence.
Qed.

Lemma at_alt_host_Some s rest g :
  at_alt_host s = Some (rest, g) ->
  exists x, s = (x ++ String "m" rest)%string.
Proof.
  unfold at_alt_host. intros H.
  destruct (at_host "old" s) as [[r g']|] eqn:E1.
  { injection H as -> ->. apply at_host_Some in E1.
    now exists "old.reddit.co". }
  destruct (at_host "mobile" s) as [[r g']|] eqn:E2.
  { injection H as -> ->. apply at_host_Some in E2.
    now exists "mobile.reddit.co". }
  apply at_host_Some in H. now exists "pay.reddit.co".
Qed.

Lemma json_has_no_m a b : "json" <> (a ++ String "m" b)%string.
Proof.
  destruct a as [|c1 [|c2 [|c3 [|c4 [|c5 a]]]]]; simpl; try discriminate;
    intros [=]; try discriminate.
  all: subst; discriminate.
Qed.

Lemma suffix_after_m a : forall pre b,
  (pre ++ ".json")%string = (a ++ String "m" b)%string ->
  exists pre', b = (pre' ++ ".json")%string.
Proof.
  induction a as [|x a IH]; intros pre b; simpl.
  - destruct pre as [|c pre]; simpl; [discriminate|].
    intros [= -> <-]. now exists pre.
  - destruct pre as [|c pre]; simpl.
    + intros [= <- H]. now apply json_has_no_m in H.
    + intros [= -> H]. now apply IH in H.
Qed.

Lemma replace_host_shape s :
  str_replace s re_alt_host "www.reddit.com" = s \/
  exists a x b, s = (a ++ x ++ String "m" b)%string /\
    str_replace s re_alt_host "www.reddit.com" =
    (a ++ "www.reddit.com" ++ b)%string.
Proof.
  unfold str_replace. rewrite (search_find _ _ exec_alt_host).
  destruct (find at_alt_host "" s) as [m|] eqn:E; [|now left]. right.
  apply find_Some in E as (pre & rest & -> & E & -> & _).
  apply at_alt_host_Some in E as (x & ->).
  exists pre, x, (after m). auto.
Qed.

Lemma replace_host_ends s :
  endsWith s ".json" = true ->
  endsWith (str_replace s re_alt_host "www.reddit.com") ".json" = true.
Proof.
  intros H. destruct (replace_host_shape s) as [->|(a & x & b & Hs & ->)];
    [assumption|].
  apply endsWith_iff in H as [pre H]. rewrite Hs, <- append_assoc in H.
  symmetry in H. apply suffix_after_m in H as [pre' ->].
  apply endsWith_iff. exists (a ++ "www.reddit.com" ++ pre')%string.
  now rewrite !append_assoc.
Qed.

Lemma replace_host_no_query s :
  no_query s = true ->
  no_query (str_replace s re_alt_host "www.reddit.com") = true.
Proof.
  intros H. destruct (replace_host_shape s) as [->|(a & x & b & Hs & ->)];
    [assumption|].
  unfold no_query in *. rewrite Hs in H.
  rewrite !all_chars_app in *. simpl in H.
  apply andb_true_iff in H as [Ha H]. apply andb_true_iff in H as [_ H].
  rewrite Ha. simpl. exact H.
Qed.



Lemma strip_i_app w : forall seg rest,
  upper_string seg = upper_string w ->
  strip char_is_i w (seg ++ rest) = Some rest.
Proof.
  induction w as [|a w IH]; intros seg rest; simpl.
  - destruct seg; [reflexivity|discriminate].
  - destruct seg as [|c seg]; [discriminate|]. simpl. intros [= E H].
    unfold char_is_i at 1. rewrite E, Ascii.eqb_refl. now apply IH.
Qed.










(** C6.  The fallback path returns a string that ends in [.json], and it
    appends nothing when the input, once the query string and the trailing
    slashes are removed, already ends in [.json]: in [part_000] (second
    file) and in [part_001] for every input, the host rewrite of
    [part_001] being applied to the unchanged string; in [part_000] (first
    file) for every input in which the thread pattern does not occur. *)
Theorem fallback_suffix :
  (forall u,
     endsWith (PublicBasic.toRedditJsonUrl u) ".json" = true /\
     (endsWith (cleaned u) ".json" = true ->
      PublicBasic.toRedditJsonUrl u = cleaned u)) /\
  (forall u,
     endsWith (PublicHost.toRedditJsonUrl u) ".json" = true /\
     (endsWith (cleaned u) ".json" = true ->
      PublicHost.toRedditJsonUrl u =
      str_replace (cleaned u) re_alt_host "www.reddit.com")) /\
  (forall u,
     str_match u re_thread_alnum = None ->
     endsWith (PublicShort.toRedditJsonUrl u) ".json" = true /\
     (endsWith (cleaned u) ".json" = true ->
      PublicShort.toRedditJsonUrl u = cleaned u)).
Proof.
  assert (K : forall c, endsWith c ".json" = true -> with_json_suffix c = c).
  { intros c H. unfold with_json_suffix. now rewrite H. }
  split; [|split].
  - intros u. split; [apply with_json_suffix_ends|apply K].
  - intros u. unfold PublicHost.toRedditJsonUrl. split.
    + apply replace_host_ends, with_json_suffix_ends.
    + intros H. now rewrite (K _ H).
  - intros u H. unfold PublicShort.toRedditJsonUrl. rewrite H.
    split; [apply with_json_suffix_ends|apply K].
Qed.

Lemma fallback_suffix_witness :
  str_match "https://old.reddit.com/r/AskReddit/" re_thread_alnum = None /\
  endsWith (PublicShort.toRedditJsonUrl "https://old.reddit.com/r/AskReddit/")
    ".json" = true /\
  endsWith (cleaned "https://www.reddit.com/r/AskReddit.json?limit=5") ".json"
    = true /\
  PublicBasic.toRedditJsonUrl "https://www.reddit.com/r/AskReddit.json?limit=5"
    = "https://www.reddit.com/r/AskReddit.json" /\
  PublicHost.toRedditJsonUrl "https://old.reddit.com/r/AskReddit.json/"
    = str_replace "https://old.reddit.com/r/AskReddit.json" re_alt_host
        "www.reddit.com".
Proof.
  split; [reflexivity|].
  split.
  { exact (proj1 (proj2 (proj2 fallback_suffix)
                    "https://old.reddit.com/r/AskReddit/" eq_refl)). }
  split; [reflexivity|].
  split.
  { exact (proj2 (proj1 fallback_suffix
                    "https://www.reddit.com/r/AskReddit.json?limit=5")
             eq_refl). }
  exact (proj2 (proj1 (proj2 fallback_suffix)
                  "https://old.reddit.com/r/AskReddit.json/") eq_refl).
Defined.




(* ================================================================== *)
(** * The token cache and the handler *)
(* ================================================================== *)

Section Server.
(** ToNumber on strings, arrays and objects: any function. *)
Variable tn : json -> number.

Lemma getRedditToken_unconfigured e io st :
  configured e = false ->
  Credentialed.getRedditToken tn e io st = (JNull, st, []).
Proof.
  unfold configured, Credentialed.getRedditToken. intros H.
  apply andb_false_iff in H.
  destruct (truthy_string (REDDIT_CLIENT_ID e)),
           (truthy_string (REDDIT_CLIENT_SECRET e)); simpl;
    try reflexivity; destruct H; discriminate.
Qed.

Lemma getRedditToken_cached e io st :
  configured e = true ->
  truthy (Some (cachedToken st)) = true -> in_window io st = true ->
  Credentialed.getRedditToken tn e io st = (cachedToken st, st, []).
Proof.
  unfold configured, in_window, Credentialed.getRedditToken. intros H Ht Hw.
  apply andb_true_iff in H as [H1 H2]. cbv zeta. rewrite H1, H2.
  cbn [negb orb]. now rewrite Ht, Hw.
Qed.

(** Outside the window, or with nothing cached: one exchange, and the
    call returns either [null] or the token it has just stored. *)
Lemma getRedditToken_exchange e io st :
  configured e = true ->
  truthy (Some (cachedToken st)) && in_window io st = false ->
  exists id secret tok st',
    Credentialed.getRedditToken tn e io st =
      (tok, st', [TokenRequest id secret]) /\
    ((tok = JNull /\ st' = st) \/
     (truthy (Some tok) = true /\ cachedToken st' = tok)).
Proof.
  unfold configured, in_window, Credentialed.getRedditToken. intros H Hw.
  apply andb_true_iff in H as [H1 H2]. cbv zeta. rewrite H1, H2.
  cbn [negb orb]. rewrite Hw.
  do 2 eexists.
  destruct (token_response io) as [data|]; cbn [bind];
    [|exists JNull, st; split; [reflexivity|left; auto]].
  destruct (member (Some data) "access_token") as [tok|]; cbn [bind];
    [|exists JNull, st; split; [reflexivity|left; auto]].
  destruct (truthy tok) eqn:Ht;
    [|exists JNull, st; split; [reflexivity|left; auto]].
  do 2 eexists. split; [reflexivity|]. right. simpl.
  destruct tok as [[]|]; simpl in *; try discriminate; auto.
Qed.

Lemma reachable_configured e st :
  Credentialed.reachable tn e st ->
  truthy (Some (cachedToken st)) = true -> configured e = true.
Proof.
  induction 1 as [|st io Hr IH]; [discriminate|].
  destruct (configured e) eqn:Hc; [reflexivity|].
  rewrite (getRedditToken_unconfigured _ _ _ Hc). simpl. exact IH.
Qed.

(** C3.  In every state the cache can reach in which a token is cached:
    a call made before the stored expiry minus 60000 ms returns the cached
    token, leaves the cache as it is and sends no request; two such calls
    in a row return the same token and send no request; and a call made
    when that time has passed (a fortiori after the expiry) sends exactly
    one request to the token endpoint. *)
Theorem cached_token_reused e st :
  Credentialed.reachable tn e st ->
  truthy (Some (cachedToken st)) = true ->
  (forall io, in_window io st = true ->
     Credentialed.getRedditToken tn e io st = (cachedToken st, st, [])) /\
  (forall io1 io2,
     in_window io1 st = true -> in_window io2 st = true ->
     exists tok st1,
       Credentialed.getRedditToken tn e io1 st = (tok, st1, []) /\
       Credentialed.getRedditToken tn e io2 st1 = (tok, st1, []) /\
       tok = cachedToken st) /\
  (forall io, in_window io st = false ->
     exists id secret,
       snd (Credentialed.getRedditToken tn e io st) = [TokenRequest id secret]).
Proof.
  intros Hr Ht. pose proof (reachable_configured _ _ Hr Ht) as Hc.
  split; [|split].
  - intros io Hw. now apply getRedditToken_cached.
  - intros io1 io2 H1 H2. exists (cachedToken st), st.
    rewrite !getRedditToken_cached; auto.
  - intros io Hw.
    destruct (getRedditToken_exchange e io st Hc)
      as (id & secret & tok & st' & -> & _).
    + now rewrite Hw, andb_false_r.
    + now exists id, secret.
Qed.

(* ---------- the handler ---------- *)
Lemma getRedditToken_events e io st :
  forall ev, In ev (snd (Credentialed.getRedditToken tn e io st)) ->
             is_token_request ev = true.
Proof.
  destruct (configured e) eqn:Hc.
  - destruct (truthy (Some (cachedToken st)) && in_window io st) eqn:Hw.
    + apply andb_true_iff in Hw as [Ht Hw].
      rewrite getRedditToken_cached by assumption. intros ev [].
    + destruct (getRedditToken_exchange e io st Hc Hw)
        as (id & secret & tok & st' & -> & _).
      intros ev [<-|[]]. reflexivity.
  - rewrite getRedditToken_unconfigured by assumption. intros ev [].
Qed.

Lemma resolved_nonempty url jsonUrl :
  Credentialed.toRedditJsonUrl url = Some jsonUrl -> url <> "" /\ jsonUrl <> "".
Proof.
  intros H. split.
  - intros ->. discriminate.
  - destruct jsonUrl; [|discriminate]. exfalso. revert H.
    unfold Credentialed.toRedditJsonUrl.
    destruct (str_match url re_subreddit_thread); [discriminate|].
    destruct (str_match url re_thread); discriminate.
Qed.

(** The handler once the URL has been resolved. *)
Lemma scrape_resolved e io st req_body url jsonUrl :
  member req_body "url" = Ok (Some (JStr url)) ->
  Credentialed.toRedditJsonUrl url = Some jsonUrl ->
  Credentialed.scrape tn e io st req_body =
  let '(token, st', asked) := Credentialed.getRedditToken tn e (auth io) st in
  if negb (truthy (Some token)) then (auth_error, st', asked)
  else
    let fetched := asked ++ [ThreadRequest jsonUrl (Some token)] in
    match upstream io jsonUrl with
    | Throw err => (internal_error err, st', fetched)
    | Ok response =>
        if negb (ok response) then
          (Reply (status response)
             (error_payload
                ("Reddit API returned status " ++ decimal (status response))),
           st', fetched ++ [ReadText])
        else
          match json <- body_json response ;; threadResult json with
          | Throw err => (internal_error err, st', fetched ++ [ReadJson])
          | Ok sent => (sent, st', fetched ++ [ReadJson])
          end
    end.
Proof.
  intros Hu Hr. destruct (resolved_nonempty _ _ Hr) as [H1 H2].
  unfold Credentialed.scrape. rewrite Hu. 
  assert (T : truthy (Some (JStr url)) = true).
  { simpl. now destruct (String.eqb_spec url ""). }
  rewrite T. cbn [negb on_string]. rewrite Hr.
  assert (T' : truthy_string (Some jsonUrl) = true).
  { simpl. now destruct (String.eqb_spec jsonUrl ""). }
  rewrite T'. reflexivity.
Qed.

(** C8.  For a request whose URL the resolver accepts, the handler first
    calls [getRedditToken] and keeps the cache it leaves.  If the call
    returns no token, the reply is the authentication error and the only
    requests sent are those of the token cache: none goes to the thread
    endpoint.  If it returns a token, the first request after those of the
    token cache is the one for the thread, and it carries that token. *)
Theorem token_before_fetch e io st req_body url jsonUrl :
  member req_body "url" = Ok (Some (JStr url)) ->
  Credentialed.toRedditJsonUrl url = Some jsonUrl ->
  forall tok st' asked sent st'' events,
    Credentialed.getRedditToken tn e (auth io) st = (tok, st', asked) ->
    Credentialed.scrape tn e io st req_body = (sent, st'', events) ->
    st'' = st' /\
    (truthy (Some tok) = false ->
       sent = auth_error /\ events = asked /\
       forall ev, In ev events -> is_thread_request ev = false) /\
    (truthy (Some tok) = true ->
       exists rest,
         events = asked ++ ThreadRequest jsonUrl (Some tok) :: rest /\
         forall ev, In ev rest -> is_thread_request ev = false).
Proof.
  intros Hu Hr tok st' asked sent st'' events Hg Hs.
  rewrite (scrape_resolved _ _ _ _ _ _ Hu Hr), Hg in Hs.
  assert (Hev : forall ev, In ev asked -> is_thread_request ev = false).
  { intros ev H. pose proof (getRedditToken_events e (auth io) st ev) as T.
    rewrite Hg in T. specialize (T H). now destruct ev. }
  destruct (truthy (Some tok)) eqn:Ht; cbn [negb] in Hs.
  - assert (R : exists rest,
               st'' = st' /\
               events = asked ++ ThreadRequest jsonUrl (Some tok) :: rest /\
               forall ev, In ev rest -> is_thread_request ev = false).
    { destruct (upstream io jsonUrl) as [response|err].
      - destruct (ok response); cbn [negb] in Hs.
        + destruct (json <- body_json response ;; threadResult json);
            injection Hs as <- <- <-; exists [ReadJson];
            rewrite <- app_assoc; (split; [reflexivity|]);
            (split; [reflexivity|]); intros ev [<-|[]]; reflexivity.
        + injection Hs as <- <- <-. exists [ReadText].
          rewrite <- app_assoc. split; [reflexivity|].
          split; [reflexivity|]. intros ev [<-|[]]. reflexivity.
      - injection Hs as <- <- <-. exists []. split; [reflexivity|].
        split; [reflexivity|]. intros ev []. }
    destruct R as (rest & -> & -> & R).
    split; [reflexivity|]. split; [discriminate|]. intros _. now exists rest.
  - injection Hs as <- <- <-. split; [reflexivity|].
    split; [|discriminate]. intros _. auto.
Qed.

End Server.

(** A whole request in [index.js]: the token is fetched and cached, the
    thread is requested with it, and the document becomes the result. *)
Example scrape_raw_document :
  Credentialed.scrape no_coercion with_credentials
    {| auth := grant; upstream := fun _ => Ok found |}
    Credentialed.initial request_body =
  (Reply 200
     (JObj [("title", JStr "T"); ("body", JStr "S");
            ("comments",
             JArr [JObj [("author", JStr "a"); ("body", JStr "b");
                         ("score", JNum 5); ("created_utc", JNum 100)]])]),
   granted,
   [TokenRequest "id" "secret";
    ThreadRequest "https://oauth.reddit.com/r/AskReddit/comments/abc123"
      (Some (JStr "tok"));
    ReadJson]).
Proof. reflexivity. Qed.

Lemma grant_reaches_granted :
  Credentialed.reachable no_coercion with_credentials granted.
Proof.
  exact (Credentialed.reachable_call no_coercion with_credentials
           Credentialed.initial grant
           (Credentialed.reachable_initial no_coercion with_credentials)).
Qed.

Lemma cached_token_reused_witness :
  in_window (call_at 2000) granted = true /\
  in_window (call_at 3600000) granted = false /\
  Credentialed.getRedditToken no_coercion with_credentials (call_at 2000)
    granted = (JStr "tok", granted, []) /\
  (exists id secret,
     snd (Credentialed.getRedditToken no_coercion with_credentials
            (call_at 3600000) granted) = [TokenRequest id secret]).
Proof.
  split; [reflexivity|]. split; [reflexivity|].
  destruct (cached_token_reused no_coercion with_credentials granted
              grant_reaches_granted eq_refl) as (H1 & _ & H3).
  split.
  - exact (H1 (call_at 2000) eq_refl).
  - exact (H3 (call_at 3600000) eq_refl).
Defined.

Lemma token_before_fetch_witness :
  let url := "https://www.reddit.com/r/AskReddit/comments/abc123/" in
  let jsonUrl := "https://oauth.reddit.com/r/AskReddit/comments/abc123" in
  let down := {| auth := call_at 0; upstream := fun _ => Ok forbidden |} in
  let up := {| auth := grant; upstream := fun _ => Ok forbidden |} in
  member request_body "url" = Ok (Some (JStr url)) /\
  Credentialed.toRedditJsonUrl url = Some jsonUrl /\
  Credentialed.scrape no_coercion with_credentials down
    Credentialed.initial request_body =
    (auth_error, Credentialed.initial, [TokenRequest "id" "secret"]) /\
  (forall ev, In ev [TokenRequest "id" "secret"] ->
              is_thread_request ev = false) /\
  (exists rest,
     snd (Credentialed.scrape no_coercion with_credentials up
            Credentialed.initial request_body) =
     [TokenRequest "id" "secret"]
       ++ ThreadRequest jsonUrl (Some (JStr "tok")) :: rest).
Proof.
  intros url jsonUrl down up.
  split; [reflexivity|]. split; [reflexivity|]. split; [reflexivity|].
  split.
  - exact (proj2 (proj2 (proj1 (proj2
      (token_before_fetch no_coercion with_credentials down
         Credentialed.initial request_body url jsonUrl
         eq_refl eq_refl JNull Credentialed.initial
         [TokenRequest "id" "secret"] auth_error
         Credentialed.initial [TokenRequest "id" "secret"]
         eq_refl eq_refl)) eq_refl))).
  - destruct (proj2 (proj2
      (token_before_fetch no_coercion with_credentials up
         Credentialed.initial request_body url jsonUrl
         eq_refl eq_refl (JStr "tok") granted
         [TokenRequest "id" "secret"] _ _ _ eq_refl eq_refl)) eq_refl)
      as (rest & E & _).
    exists rest. exact E.
Defined.


(* ================================================================== *)
(** * More on the flattener *)
(* ================================================================== *)

Lemma single_throw_spreads pre child post e :
  extractComments (JArr [child]) = Throw e ->
  exists e', extractComments (JArr (pre ++ child :: post)) = Throw e'.
Proof.
  intros H. rewrite extractComments_app.
  destruct (extractComments (JArr pre)); cbn [bind]; [|eauto].
  change (child :: post) with ([child] ++ post).
  rewrite extractComments_app, H. cbn [bind]. eauto.
Qed.

(** X1.  A child that is not a comment (its [kind] is not ["t1"]: a
    "more" placeholder, a listing, a string, a number) and is not [null]
    contributes nothing: the listing flattens as if the child were not
    there, whatever the child holds. *)
Theorem other_kinds_skipped pre child post :
  is_comment child = false -> child <> JNull ->
  extractComments (JArr (pre ++ child :: post)) =
  extractComments (JArr (pre ++ post)).
Proof.
  intros Hk Hn. rewrite !extractComments_app.
  destruct (extractComments (JArr pre)); cbn [bind]; [|reflexivity].
  rewrite (extractComments_JArr (child :: post)), (extractLoop_other _ _ Hk).
  destruct child; try contradiction; reflexivity.
Qed.

Lemma other_kinds_skipped_witness :
  is_comment (listing [node_D]) = false /\ listing [node_D] <> JNull /\
  extractComments (JArr ([node_B] ++ listing [node_D] :: [node_D])) =
  extractComments (JArr ([node_B] ++ [node_D])).
Proof.
  split; [reflexivity|]. split; [discriminate|].
  apply (other_kinds_skipped [node_B] (listing [node_D]) [node_D]);
    [reflexivity|discriminate].
Defined.

(** X2.  Flattening distributes over the concatenation of listings: the
    records of [front ++ back] are those of [front] followed by those of
    [back], and an exception of [front] comes before one of [back]. *)
Theorem listings_concatenate front back :
  extractComments (JArr (front ++ back)) =
  (first <- extractComments (JArr front) ;;
   second <- extractComments (JArr back) ;;
   Ok (first ++ second)).
Proof. apply extractComments_app. Qed.

(** X3.  One malformed child makes the whole call throw, wherever it is
    in the listing: a [null] child, a comment whose [data] is [null] or
    missing, or a comment whose replies throw.  No record of the other
    children is returned. *)
Theorem malformed_node_throws items child :
  In child items ->
  child = JNull \/
  (is_comment child = true /\ nullish (data_of child) = true) \/
  (is_comment child = true /\ exists e, repliesOf (data_of child) = Throw e) ->
  exists e, extractComments (JArr items) = Throw e.
Proof.
  intros Hin H. apply in_split in Hin as (pre & post & ->).
  assert (S : exists e, extractComments (JArr [child]) = Throw e).
  { destruct H as [->|[[Hc Hd]|[Hc [e He]]]].
    - eexists. reflexivity.
    - rewrite (extractComments_single _ Hc).
      destruct (data_of child) as [[]|]; try discriminate; cbn; eauto.
    - rewrite (extractComments_single _ Hc), He.
      destruct (member (data_of child) "body"); cbn [bind]; eauto. }
  destruct S as [e S]. now apply single_throw_spreads with e.
Qed.

Lemma malformed_node_throws_witness :
  In (JObj [("kind", JStr "t1")]) [node_B; JObj [("kind", JStr "t1")]] /\
  exists e,
    extractComments (JArr [node_B; JObj [("kind", JStr "t1")]]) = Throw e.
Proof.
  split; [right; left; reflexivity|].
  apply (malformed_node_throws [node_B; JObj [("kind", JStr "t1")]]
           (JObj [("kind", JStr "t1")])).
  - right. left. reflexivity.
  - right. left. split; reflexivity.
Defined.

(** X4.  What the flattener does with an argument that is not an array: a
    string is iterated character by character and gives no record; any
    other value (null, a boolean, a number, an object) is not iterable
    and makes the call throw. *)
Theorem children_not_an_array :
  (forall s, extractComments (JStr s) = Ok []) /\
  (forall children,
     match children with JArr _ | JStr _ => False | _ => True end ->
     exists e, extractComments children = Throw e).
Proof.
  split.
  - intros s. rewrite extractComments_eq. unfold extractStep. cbn [iterate bind].
    induction s as [|c s IH]; [reflexivity|]. exact IH.
  - intros children H. rewrite extractComments_eq.
    destruct children; try contradiction; cbn; eauto.
Qed.

Lemma children_not_an_array_witness :
  extractComments (JStr "t1") = Ok [] /\
  exists e, extractComments (listing [node_B]) = Throw e.
Proof.
  split.
  - apply (proj1 children_not_an_array "t1").
  - apply (proj2 children_not_an_array (listing [node_B])). exact I.
Defined.

Lemma records_are_own n : forall listing out r,
  json_size listing <= n ->
  extractComments listing = Ok out -> In r out ->
  exists d, In r (own_record d).
Proof.
  induction n as [|n IH]; intros listing out r Hn H Hin.
  - pose proof (json_size_pos listing). lia.
  - rewrite extractComments_eq in H. unfold extractStep in H.
    apply bind_Ok in H as (items & Hit & H).
    destruct (loop_records _ _ _ H Hin) as (child & Hc & Hk & Hr).
    destruct Hr as [Hown|(sub & Hsub & Hr)]; [eauto|].
    unfold repliesOf in Hsub.
    destruct (truthy (repliesChildren (data_of child))) eqn:Ht;
      [|injection Hsub as <-; destruct Hr].
    apply IH with (coalesce (repliesChildren (data_of child)) JNull) sub;
      try assumption.
    pose proof (nested_size _ _ (is_comment_data _ Hk) Ht) as L.
    destruct listing; simpl in Hit; try discriminate.
    + injection Hit as <-. apply chars_not_comment in Hc. congruence.
    + injection Hit as <-. apply In_size in Hc. lia.
Qed.

(** X5.  On any input, well formed or not, a record that is returned has
    a truthy [body], and neither its [author] nor its [score] is [null]:
    the defaults ["[deleted]"] and [0] replace a missing and a [null]
    value alike. *)
Theorem records_never_null listing out r :
  extractComments listing = Ok out -> In r out ->
  truthy (Some (body r)) = true /\
  author r <> JNull /\ score r <> JNull.
Proof.
  intros H Hin.
  destruct (records_are_own _ _ _ _ (le_n _) H Hin) as (d & Hd).
  unfold own_record in Hd.
  destruct (truthy (opt_member d "body")) eqn:Ht; [|destruct Hd].
  destruct Hd as [<-|[]]. unfold commentRecord. simpl.
  split; [|split].
  - destruct (opt_member d "body") as [[]|]; simpl in *; congruence.
  - destruct (opt_member d "author") as [[]|]; simpl; discriminate.
  - destruct (opt_member d "score") as [[]|]; simpl; discriminate.
Qed.

Lemma records_never_null_witness :
  extractComments (JArr [node_A]) =
    Ok [record_of "A" "hi"; record_of "B" "yo"; record_of "D" "hey"] /\
  truthy (Some (body (record_of "D" "hey"))) = true /\
  author (record_of "D" "hey") <> JNull /\
  score (record_of "D" "hey") <> JNull.
Proof.
  split; [reflexivity|].
  apply (records_never_null (JArr [node_A])
           [record_of "A" "hi"; record_of "B" "yo"; record_of "D" "hey"]
           (record_of "D" "hey")).
  - reflexivity.
  - right. right. left. reflexivity.
Defined.

(* ================================================================== *)
(** * More on the token cache *)
(* ================================================================== *)

Section TokenCache.

Variable tn : json -> number.

Lemma getRedditToken_cases e io st :
  (exists tok st',
     Credentialed.getRedditToken tn e io st = (tok, st', []) /\ st' = st /\
     (tok = JNull \/ (tok = cachedToken st /\ truthy (Some tok) = true))) \/
  (exists id secret tok st',
     configured e = true /\
     truthy (Some (cachedToken st)) && in_window io st = false /\
     Credentialed.getRedditToken tn e io st =
       (tok, st', [TokenRequest id secret]) /\
     ((tok = JNull /\ st' = st) \/
      (truthy (Some tok) = true /\ cachedToken st' = tok))).
Proof.
  destruct (configured e) eqn:Hc.
  - destruct (truthy (Some (cachedToken st)) && in_window io st) eqn:Hw.
    + left. apply andb_true_iff in Hw as [Ht Hw].
      exists (cachedToken st), st.
      rewrite getRedditToken_cached by assumption. auto.
    + right.
      destruct (getRedditToken_exchange tn e io st Hc Hw)
        as (id & secret & tok & st' & E & H).
      exists id, secret, tok, st'. auto.
  - left. exists JNull, st.
    rewrite getRedditToken_unconfigured by assumption. auto.
Qed.

(** X6.  A failed authentication is not remembered: when
    [getRedditToken] returns no usable token, it returns [null] and
    leaves both cache variables as they were (a token cached earlier is
    kept); when it returns a token, that token is the cached one. *)
Theorem failure_not_cached e io st tok st' events :
  Credentialed.getRedditToken tn e io st = (tok, st', events) ->
  (truthy (Some tok) = false -> tok = JNull /\ st' = st) /\
  (truthy (Some tok) = true -> cachedToken st' = tok).
Proof.
  intros H.
  destruct (getRedditToken_cases e io st)
    as [(t & s & E & -> & D)|(id & secret & t & s & _ & _ & E & D)];
    rewrite E in H; injection H as <- <- <-.
  - destruct D as [->|[-> Ht]]; split; intros H;
      try discriminate; try congruence; auto.
  - destruct D as [[-> ->]|[Ht E']]; split; intros H;
      try discriminate; try congruence; auto.
Qed.

Lemma exchange_granted e io st data tokv :
  configured e = true ->
  truthy (Some (cachedToken st)) && in_window io st = false ->
  token_response io = Ok data ->
  opt_member (Some data) "access_token" = Some tokv ->
  truthy (Some tokv) = true ->
  exists id secret,
    Credentialed.getRedditToken tn e io st =
    (tokv,
     {| cachedToken := tokv;
        tokenExpiry :=
          num_add (Num (now_store io))
            (num_mul
               (Credentialed.ToNumber tn (opt_member (Some data) "expires_in"))
               (Num 1000)) |},
     [TokenRequest id secret]).
Proof.
  unfold configured, in_window, Credentialed.getRedditToken.
  intros H Hw Hd Ha Ht.
  apply andb_true_iff in H as [H1 H2]. cbv zeta. rewrite H1, H2.
  cbn [negb orb]. rewrite Hw, Hd. cbn [bind].
  assert (M : member (Some data) "access_token" = Ok (Some tokv)).
  { destruct data; simpl in *; try discriminate. now rewrite Ha. }
  rewrite M. cbn [bind]. rewrite Ht. cbn [coalesce cachedToken].
  do 2 eexists. destruct tokv; try discriminate; reflexivity.
Qed.

(** X7.  After a grant with an integer [expires_in], the token is
    returned from the cache, with no request, by every call made before
    [granted at + expires_in * 1000 - 60000] milliseconds, and every call
    made from that moment on asks the token endpoint again, once. *)
Theorem granted_token_reused e io st data tokv lifetime :
  configured e = true ->
  truthy (Some (cachedToken st)) && in_window io st = false ->
  token_response io = Ok data ->
  opt_member (Some data) "access_token" = Some tokv ->
  truthy (Some tokv) = true ->
  opt_member (Some data) "expires_in" = Some (JNum lifetime) ->
  exists st' asked,
    Credentialed.getRedditToken tn e io st = (tokv, st', asked) /\
    forall io2,
      ((now_check io2 < now_store io + lifetime * 1000 - 60000)%Z ->
       Credentialed.getRedditToken tn e io2 st' = (tokv, st', [])) /\
      ((now_store io + lifetime * 1000 - 60000 <= now_check io2)%Z ->
       exists id secret,
         snd (Credentialed.getRedditToken tn e io2 st') =
         [TokenRequest id secret]).
Proof.
  intros Hc Hw Hd Ha Ht He.
  destruct (exchange_granted e io st data tokv Hc Hw Hd Ha Ht)
    as (id & secret & E).
  rewrite He in E. cbn [Credentialed.ToNumber num_mul num_add] in E.
  do 2 eexists. split; [exact E|]. intros io2. split; intros L.
  - apply getRedditToken_cached; [exact Hc|exact Ht|].
    unfold in_window. cbn. apply Z.ltb_lt. lia.
  - destruct (getRedditToken_exchange tn e io2
                {| cachedToken := tokv;
                   tokenExpiry := Num (now_store io + lifetime * 1000) |} Hc)
      as (id2 & secret2 & t & s & -> & _).
    + apply andb_false_iff. right. unfold in_window. cbn.
      apply Z.ltb_ge. lia.
    + now exists id2, secret2.
Qed.

(** X8.  A grant whose response has no [expires_in] is stored with the
    expiry [NaN], which no time is less than: the token is returned to the
    caller that obtained it, but every later call asks the token endpoint
    again. *)
Theorem token_without_lifetime_not_reused e io st data tokv :
  configured e = true ->
  truthy (Some (cachedToken st)) && in_window io st = false ->
  token_response io = Ok data ->
  opt_member (Some data) "access_token" = Some tokv ->
  truthy (Some tokv) = true ->
  opt_member (Some data) "expires_in" = None ->
  exists st' asked,
    Credentialed.getRedditToken tn e io st = (tokv, st', asked) /\
    tokenExpiry st' = NaN /\
    forall io2, exists id secret,
      snd (Credentialed.getRedditToken tn e io2 st') =
      [TokenRequest id secret].
Proof.
  intros Hc Hw Hd Ha Ht He.
  destruct (exchange_granted e io st data tokv Hc Hw Hd Ha Ht)
    as (id & secret & E).
  rewrite He in E. cbn [Credentialed.ToNumber num_mul num_add] in E.
  do 2 eexists. split; [exact E|]. split; [reflexivity|]. intros io2.
  destruct (getRedditToken_exchange tn e io2
              {| cachedToken := tokv; tokenExpiry := NaN |} Hc)
    as (id2 & secret2 & t & s & -> & _).
  - apply andb_false_iff. now right.
  - now exists id2, secret2.
Qed.

(** X9.  Without both credentials the cache never leaves its initial
    state, and every call returns [null] without a request. *)
Theorem unconfigured_never_asks e st :
  configured e = false ->
  Credentialed.reachable tn e st ->
  st = Credentialed.initial /\
  forall io, Credentialed.getRedditToken tn e io st = (JNull, st, []).
Proof.
  intros Hc Hr. split.
  - induction Hr as [|st io Hr IH]; [reflexivity|].
    now rewrite getRedditToken_unconfigured.
  - intros io. now apply getRedditToken_unconfigured.
Qed.
End TokenCache.

Lemma failure_not_cached_witness :
  Credentialed.getRedditToken no_coercion with_credentials (call_at 3600000)
    granted = (JNull, granted, [TokenRequest "id" "secret"]) /\
  (truthy (Some JNull) = false -> JNull = JNull /\ granted = granted) /\
  (truthy (Some JNull) = true -> cachedToken granted = JNull).
Proof.
  split; [reflexivity|].
  apply (failure_not_cached no_coercion with_credentials (call_at 3600000)
           granted JNull granted [TokenRequest "id" "secret"]).
  reflexivity.
Defined.

Lemma granted_token_reused_witness :
  exists st' asked,
    Credentialed.getRedditToken no_coercion with_credentials grant
      Credentialed.initial = (JStr "tok", st', asked) /\
    Credentialed.getRedditToken no_coercion with_credentials (call_at 3540999)
      st' = (JStr "tok", st', []) /\
    exists id secret,
      snd (Credentialed.getRedditToken no_coercion with_credentials
             (call_at 3541000) st') = [TokenRequest id secret].
Proof.
  destruct (granted_token_reused no_coercion with_credentials grant
              Credentialed.initial
              (JObj [("access_token", JStr "tok"); ("expires_in", JNum 3600)])
              (JStr "tok") 3600 eq_refl eq_refl eq_refl eq_refl eq_refl
              eq_refl) as (st' & asked & E & H).
  exists st', asked. split; [exact E|]. split.
  - apply (proj1 (H (call_at 3540999))). reflexivity.
  - apply (proj2 (H (call_at 3541000))). discriminate.
Defined.

Lemma token_without_lifetime_not_reused_witness :
  let io := {| now_check := 0;
               token_response := Ok (JObj [("access_token", JStr "tok")]);
               now_store := 1000 |} in
  exists st' asked,
    Credentialed.getRedditToken no_coercion with_credentials io
      Credentialed.initial = (JStr "tok", st', asked) /\
    tokenExpiry st' = NaN /\
    exists id secret,
      snd (Credentialed.getRedditToken no_coercion with_credentials
             (call_at 1001) st') = [TokenRequest id secret].
Proof.
  intros io.
  destruct (token_without_lifetime_not_reused no_coercion with_credentials io
              Credentialed.initial (JObj [("access_token", JStr "tok")])
              (JStr "tok") eq_refl eq_refl eq_refl eq_refl eq_refl eq_refl)
    as (st' & asked & E & N & H).
  exists st', asked. split; [exact E|]. split; [exact N|].
  exact (H (call_at 1001)).
Defined.

Lemma unconfigured_never_asks_witness :
  configured without_credentials = false /\
  Credentialed.getRedditToken no_coercion without_credentials grant
    Credentialed.initial = (JNull, Credentialed.initial, []).
Proof.
  split; [reflexivity|].
  apply (proj2 (unconfigured_never_asks no_coercion without_credentials
                  Credentialed.initial eq_refl
                  (Credentialed.reachable_initial no_coercion
                     without_credentials))).
Defined.


(* ================================================================== *)
(** * More on the handlers *)
(* ================================================================== *)

Lemma threadResult_eq json :
  threadResult json =
  (first <- elem (Some json) 0 ;;
   comments <- extractComments (comment_children json) ;;
   Ok (Reply 200
         (JObj [("title",
                 coalesce
                   (opt_member
                      (Some
                         (coalesce
                            (opt_member
                               (opt_elem
                                  (opt_member (opt_member first "data")
                                     "children") 0) "data") (JObj [])))
                      "title") (JStr ""));
                ("body",
                 coalesce
                   (opt_member
                      (Some
                         (coalesce
                            (opt_member
                               (opt_elem
                                  (opt_member (opt_member first "data")
                                     "children") 0) "data") (JObj [])))
                      "selftext") (JStr ""));
                ("comments", JArr (map json_of_comment comments))]))).
Proof.
  unfold threadResult, comment_children.
  destruct json; reflexivity.
Qed.

Lemma coalesce_not_null v d : d <> JNull -> coalesce v d <> JNull.
Proof. intros H. destruct v as [[]|]; simpl; congruence. Qed.

(** X10.  From the parsed document to the reply: the step throws exactly
    when the document is [null] or the flattener throws on
    [json[1]?.data?.children ?? []]; otherwise the reply is a 200 with the
    keys [title], [body], [comments], where title and body are never
    [null] (a missing post gives empty strings). *)
Theorem threadResult_total_on_documents json :
  ((exists e, threadResult json = Throw e) <->
   json = JNull \/ exists e, extractComments (comment_children json) = Throw e)
  /\
  (forall sent, threadResult json = Ok sent ->
     exists title text comments,
       extractComments (comment_children json) = Ok comments /\
       sent = Reply 200
                (JObj [("title", title); ("body", text);
                       ("comments", JArr (map json_of_comment comments))]) /\
       title <> JNull /\ text <> JNull).
Proof.
  rewrite threadResult_eq. split.
  - split.
    + intros [e H]. destruct json; cbn [elem bind] in H;
        try (now left); right;
        destruct (extractComments _); cbn [bind] in H;
        try discriminate; eauto.
    + intros [->|[e H]]; [cbn; eauto|].
      rewrite H. destruct json; cbn; eauto.
  - intros sent H.
    destruct (elem (Some json) 0) as [first|]; cbn [bind] in H;
      [|discriminate].
    destruct (extractComments (comment_children json)) as [comments|];
      cbn [bind] in H; [|discriminate].
    injection H as <-. do 3 eexists. split; [reflexivity|].
    split; [reflexivity|]. split; apply coalesce_not_null; discriminate.
Qed.

Lemma threadResult_total_on_documents_witness :
  (exists e, threadResult JNull = Throw e) /\
  (exists e, threadResult (JArr [JObj []; JObj [("data", JObj [("children", JNum 1)])]])
             = Throw e) /\
  exists title text comments,
    extractComments (comment_children raw_document) = Ok comments /\
    threadResult raw_document =
      Ok (Reply 200
            (JObj [("title", title); ("body", text);
                   ("comments", JArr (map json_of_comment comments))])) /\
    title <> JNull /\ text <> JNull.
Proof.
  split; [|split].
  - apply (proj2 (proj1 (threadResult_total_on_documents JNull))).
    left. reflexivity.
  - apply (proj2 (proj1 (threadResult_total_on_documents
                           (JArr [JObj [];
                                  JObj [("data", JObj [("children", JNum 1)])]])))).
    right. exists (TypeError "children is not iterable"). reflexivity.
  - destruct (proj2 (threadResult_total_on_documents raw_document) _ eq_refl)
      as (title & text & comments & H1 & H2 & H3 & H4).
    exists title, text, comments. split; [exact H1|].
    split; [|split; [exact H3|exact H4]].
    rewrite <- H2. reflexivity.
Defined.

Lemma usable_or_not req_body :
  usable_url req_body \/
  (exists e, member req_body "url" = Throw e) \/
  (exists url, member req_body "url" = Ok url /\ truthy url = false) \/
  (exists url, member req_body "url" = Ok url /\ truthy url = true /\
               forall s, url <> Some (JStr s)).
Proof.
  destruct (member req_body "url") as [url|e] eqn:E; [|right; left; eauto].
  destruct (truthy url) eqn:T; [|right; right; left; eauto].
  destruct url as [[| | |s| |]|];
    try (right; right; right; exists (Some JNull); discriminate);
    try (right; right; right; eexists; (split; [reflexivity|]);
         (split; [exact T|]); intros s'; discriminate).
  left. exists s. split; [|exact E]. intros ->. discriminate.
Qed.

Lemma usable_truthy s : s <> "" -> truthy (Some (JStr s)) = true.
Proof. intros H. simpl. now destruct (String.eqb_spec s ""). Qed.

Lemma usable_url_dec req_body : usable_url req_body \/ ~ usable_url req_body.
Proof.
  destruct (usable_or_not req_body)
    as [H|[[e H]|[(url & H & T)|(url & H & T & S)]]]; [now left| | |];
    right; intros (s & Hne & Hu).
  - congruence.
  - rewrite Hu in H. injection H as <-.
    rewrite (usable_truthy _ Hne) in T. discriminate.
  - rewrite Hu in H. injection H as <-. now destruct (S s).
Qed.

Section Handlers.

Variable tn : json -> number.

Lemma silent_without_url req_body :
  ~ usable_url req_body ->
  (forall e io st,
     exists code payload,
       Credentialed.scrape tn e io st req_body = (Reply code payload, st, [])
       /\ (code = 400 \/ code = 500)%Z) /\
  (forall method resolve logsSnippet get,
     exists code payload,
       publicScrape method resolve logsSnippet get req_body =
         (Reply code payload, [])
       /\ (code = 400 \/ code = 500)%Z).
Proof.
  intros Hn.
  destruct (usable_or_not req_body)
    as [H|[[e H]|[(url & H & T)|(url & H & T & S)]]]; [contradiction| | |].
  - split.
    + intros. unfold Credentialed.scrape. rewrite H. unfold internal_error.
      eauto.
    + intros. unfold publicScrape. rewrite H. unfold internal_error. eauto.
  - split.
    + intros. unfold Credentialed.scrape. rewrite H, T. cbn [negb]. eauto.
    + intros. unfold publicScrape. rewrite H, T. cbn [negb]. eauto.
  - assert (O : forall A method (f : string -> A),
               exists err, on_string method f url = Throw err).
    { intros. destruct url as [[| | |s| |]|]; cbn; eauto.
      now destruct (S s). }
    split.
    + intros. unfold Credentialed.scrape. rewrite H, T. cbn [negb].
      destruct (O _ "match" Credentialed.toRedditJsonUrl) as [err ->].
      unfold internal_error. eauto.
    + intros. unfold publicScrape. rewrite H, T. cbn [negb].
      destruct (O _ method resolve) as [err ->].
      unfold internal_error. eauto.
Qed.

(** X11.  A request whose body has no usable [url] (no body, a missing,
    falsy or non-string [url]) is answered 400 or 500 without any request
    to Reddit and without touching the token cache, in every variant; a
    falsy [url] gives the 400 "URL is required". *)
Theorem no_usable_url_no_request req_body :
  ~ usable_url req_body ->
  (forall e io st,
     exists code payload,
       Credentialed.scrape tn e io st req_body = (Reply code payload, st, [])
       /\ (code = 400 \/ code = 500)%Z) /\
  (forall method resolve logsSnippet get,
     exists code payload,
       publicScrape method resolve logsSnippet get req_body =
         (Reply code payload, [])
       /\ (code = 400 \/ code = 500)%Z) /\
  (forall url, member req_body "url" = Ok url -> truthy url = false ->
     (forall e io st,
        Credentialed.scrape tn e io st req_body =
        (Reply 400 (error_payload "URL is required"), st, [])) /\
     (forall method resolve logsSnippet get,
        publicScrape method resolve logsSnippet get req_body =
        (Reply 400 (error_payload "URL is required"), []))).
Proof.
  intros Hn. destruct (silent_without_url _ Hn) as [C P].
  split; [exact C|]. split; [exact P|].
  intros url H T. split; intros.
  - unfold Credentialed.scrape. now rewrite H, T.
  - unfold publicScrape. now rewrite H, T.
Qed.

Lemma publicScrape_usable method resolve logsSnippet get req_body url :
  url <> "" -> member req_body "url" = Ok (Some (JStr url)) ->
  publicScrape method resolve logsSnippet get req_body =
  let fetched := [ThreadRequest (resolve url) None] in
  match get (resolve url) with
  | Throw err => (internal_error err, fetched)
  | Ok response =>
      if negb (ok response) then
        (Reply (status response)
           (error_payload
              ("Reddit returned status " ++ decimal (status response))),
         fetched ++ (if logsSnippet then [ReadText] else []))
      else
        match json <- body_json response ;; threadResult json with
        | Throw err => (internal_error err, fetched ++ [ReadJson])
        | Ok sent => (sent, fetched ++ [ReadJson])
        end
  end.
Proof.
  intros Hne Hu. unfold publicScrape.
  rewrite Hu, (usable_truthy _ Hne). reflexivity.
Qed.

Lemma scrape_unresolved e io st req_body url :
  url <> "" -> member req_body "url" = Ok (Some (JStr url)) ->
  Credentialed.toRedditJsonUrl url = None ->
  Credentialed.scrape tn e io st req_body =
  (Reply 400 (error_payload "Invalid Reddit URL format"), st, []).
Proof.
  intros Hne Hu Hr. unfold Credentialed.scrape.
  rewrite Hu, (usable_truthy _ Hne). cbn [negb on_string]. now rewrite Hr.
Qed.

(** X12.  One request to the server makes at most one token request, at
    most one thread request and at most one read of the upstream body;
    the public variants never make a token request. *)
Theorem one_attempt_per_request req_body :
  (forall e io st,
     let events := snd (Credentialed.scrape tn e io st req_body) in
     count is_token_request events <= 1 /\
     count is_thread_request events <= 1 /\
     count is_body_read events <= 1) /\
  (forall method resolve logsSnippet get,
     let events := snd (publicScrape method resolve logsSnippet get req_body) in
     count is_token_request events = 0 /\
     count is_thread_request events <= 1 /\
     count is_body_read events <= 1).
Proof.
  destruct (usable_url_dec req_body) as [(url & Hne & Hu)|Hn].
  - split.
    + intros e io st.
      destruct (Credentialed.toRedditJsonUrl url) as [jsonUrl|] eqn:Hr.
      * rewrite (scrape_resolved tn e io st req_body url jsonUrl Hu Hr).
        destruct (getRedditToken_cases tn e (auth io) st)
          as [(t & s & E & _)|(id & secret & t & s & _ & _ & E & _)];
          rewrite E; destruct (truthy (Some t)); cbn [negb];
          try (cbn; lia);
          destruct (upstream io jsonUrl) as [response|];
          try (cbn; lia);
          destruct (ok response); cbn [negb]; try (cbn; lia);
          destruct (json <- body_json response ;; threadResult json);
          cbn; lia.
      * rewrite (scrape_unresolved e io st req_body url Hne Hu Hr). cbn. lia.
    + intros method resolve logsSnippet get.
      rewrite (publicScrape_usable _ _ _ _ _ _ Hne Hu). cbv zeta.
      destruct (get (resolve url)) as [response|]; try (cbn; lia).
      destruct (ok response); cbn [negb].
      * destruct (json <- body_json response ;; threadResult json);
          cbn; lia.
      * destruct logsSnippet; cbn; lia.
  - destruct (silent_without_url _ Hn) as [C P]. split.
    + intros e io st. destruct (C e io st) as (code & payload & -> & _).
      cbn. lia.
    + intros method resolve logsSnippet get.
      destruct (P method resolve logsSnippet get) as (code & payload & -> & _).
      cbn. lia.
Qed.

Lemma not_ok_not_200 response : ok response = false -> status response <> 200%Z.
Proof. unfold ok. intros H E. rewrite E in H. discriminate. Qed.

(** X13.  A 200 reply is sent only after a successful fetch: the body
    had a string [url], the thread request was made (with a truthy bearer
    token in the credentialed variant), the upstream response was [ok],
    its body parsed, and the payload is the one built from it. *)
Theorem success_only_after_fetch req_body payload :
  (forall e io st st' events,
     Credentialed.scrape tn e io st req_body =
       (Reply 200 payload, st', events) ->
     exists url jsonUrl tok response json,
       member req_body "url" = Ok (Some (JStr url)) /\
       Credentialed.toRedditJsonUrl url = Some jsonUrl /\
       In (ThreadRequest jsonUrl (Some tok)) events /\
       truthy (Some tok) = true /\
       upstream io jsonUrl = Ok response /\ ok response = true /\
       body_json response = Ok json /\
       threadResult json = Ok (Reply 200 payload)) /\
  (forall method resolve logsSnippet get events,
     publicScrape method resolve logsSnippet get req_body =
       (Reply 200 payload, events) ->
     exists url response json,
       member req_body "url" = Ok (Some (JStr url)) /\
       events = [ThreadRequest (resolve url) None; ReadJson] /\
       get (resolve url) = Ok response /\ ok response = true /\
       body_json response = Ok json /\
       threadResult json = Ok (Reply 200 payload)).
Proof.
  destruct (usable_url_dec req_body) as [(url & Hne & Hu)|Hn].
  - split.
    + intros e io st st' events H.
      destruct (Credentialed.toRedditJsonUrl url) as [jsonUrl|] eqn:Hr;
        [|rewrite (scrape_unresolved e io st req_body url Hne Hu Hr) in H;
          discriminate].
      rewrite (scrape_resolved tn e io st req_body url jsonUrl Hu Hr) in H.
      destruct (Credentialed.getRedditToken tn e (auth io) st)
        as [[tok s] asked].
      destruct (truthy (Some tok)) eqn:Ht; cbn [negb] in H; [|discriminate].
      destruct (upstream io jsonUrl) as [response|] eqn:Hup; [|discriminate].
      destruct (ok response) eqn:Hok; cbn [negb] in H.
      * destruct (body_json response) as [json|] eqn:Hj; cbn [bind] in H;
          [|discriminate].
        destruct (threadResult json) as [sent|] eqn:Hs; [|discriminate].
        injection H as -> <- <-.
        exists url, jsonUrl, tok, response, json. repeat split; auto.
        rewrite !in_app_iff. left. right. now left.
      * injection H as E _ _. now apply not_ok_not_200 in Hok.
    + intros method resolve logsSnippet get events H.
      rewrite (publicScrape_usable _ _ _ _ _ _ Hne Hu) in H. cbv zeta in H.
      destruct (get (resolve url)) as [response|] eqn:Hup; [|discriminate].
      destruct (ok response) eqn:Hok; cbn [negb] in H.
      * destruct (body_json response) as [json|] eqn:Hj; cbn [bind] in H;
          [|discriminate].
        destruct (threadResult json) as [sent|] eqn:Hs; [|discriminate].
        injection H as -> <-.
        exists url, response, json. repeat split; auto.
      * injection H as E _. now apply not_ok_not_200 in Hok.
  - destruct (silent_without_url _ Hn) as [C P]. split.
    + intros e io st st' events H.
      destruct (C e io st) as (code & pl & E & [->| ->]);
        rewrite E in H; discriminate.
    + intros method resolve logsSnippet get events H.
      destruct (P method resolve logsSnippet get) as (code & pl & E & [->| ->]);
        rewrite E in H; discriminate.
Qed.
End Handlers.

Lemma no_usable_url_no_request_witness :
  ~ usable_url (Some (JObj [("url", JNum 7)])) /\
  (exists code payload,
     Credentialed.scrape no_coercion with_credentials
       {| auth := grant; upstream := fun _ => Ok found |} granted
       (Some (JObj [("url", JNum 7)])) = (Reply code payload, granted, []) /\
     (code = 400 \/ code = 500)%Z) /\
  PublicBasic.scrape (fun _ => Ok found) (Some (JObj [("url", JStr "")])) =
    (Reply 400 (error_payload "URL is required"), []).
Proof.
  assert (N : forall j, (forall s, j = JStr s -> s = "") ->
                ~ usable_url (Some (JObj [("url", j)]))).
  { intros j Hj (s & Hne & H). injection H as H. now apply Hj in H. }
  split; [apply N; discriminate|]. split.
  - apply (proj1 (no_usable_url_no_request no_coercion
                    (Some (JObj [("url", JNum 7)]))
                    ltac:(apply N; discriminate))).
  - apply (proj2 (proj2 (no_usable_url_no_request no_coercion
                           (Some (JObj [("url", JStr "")]))
                           ltac:(apply N; intros s [= <-]; reflexivity)))
             (Some (JStr "")) eq_refl eq_refl).
Defined.

Lemma success_only_after_fetch_witness :
  exists payload url response document,
    PublicBasic.scrape (fun _ => Ok found) request_body =
      (Reply 200 payload,
       [ThreadRequest (PublicBasic.toRedditJsonUrl url) None; ReadJson]) /\
    member request_body "url" = Ok (Some (JStr url)) /\
    ok response = true /\ body_json response = Ok document /\
    threadResult document = Ok (Reply 200 payload).
Proof.
  destruct (proj2 (success_only_after_fetch no_coercion request_body _)
              "split" PublicBasic.toRedditJsonUrl false (fun _ => Ok found)
              _ eq_refl)
    as (url & response & document & H1 & H2 & H3 & H4 & H5 & H6).
  eexists _, url, response, document.
  split; [rewrite <- H2; reflexivity|].
  split; [exact H1|]. split; [exact H4|]. split; [exact H5|exact H6].
Defined.

(* ================================================================== *)
(** * More on the resolvers *)
(* ================================================================== *)

(** ** The credentialed resolver on the usual shapes of a thread URL *)

Lemma upper_slash c : upper c = "/"%char -> c = "/"%char.
Proof. destruct c as [[] [] [] [] [] [] [] []]; cbv; congruence. Qed.

Lemma upper_not_slash c a :
  upper c = upper a -> not_slash a = true -> not_slash c = true.
Proof.
  unfold not_slash. intros H Ha.
  destruct (Ascii.eqb_spec c "/") as [->|]; [|reflexivity].
  destruct (Ascii.eqb_spec a "/") as [->|Hn]; [discriminate|].
  exfalso. apply Hn. apply upper_slash. now rewrite <- H.
Qed.

(** A literal segment followed by a slash, against a segment of the
    input: the two agree up to case. *)
Lemma strip_i_segment w1 : forall x y r,
  all_chars not_slash x = true -> all_chars not_slash w1 = true ->
  strip char_is_i (w1 ++ "/") (x ++ String "/" y) = Some r ->
  upper_string x = upper_string w1 /\ r = y.
Proof.
  induction w1 as [|a w1 IH]; intros x y r Hx Hw; simpl.
  - destruct x as [|c x]; [now intros [= ->]|]. simpl in *.
    apply andb_true_iff in Hx as [Hc _]. rewrite char_is_i_slash.
    unfold not_slash in Hc. destruct (Ascii.eqb c "/"); discriminate.
  - simpl in Hw. apply andb_true_iff in Hw as [Ha Hw].
    destruct x as [|c x]; simpl.
    + unfold char_is_i.
      destruct (Ascii.eqb_spec (upper "/") (upper a)) as [E|]; [|discriminate].
      symmetry in E. apply upper_slash in E. subst a. discriminate.
    + simpl in Hx. apply andb_true_iff in Hx as [Hc Hx]. unfold char_is_i at 1.
      destruct (Ascii.eqb_spec (upper c) (upper a)) as [E|]; [|discriminate].
      intros H. destruct (IH _ _ _ Hx Hw H) as [-> ->]. now rewrite E.
Qed.

(** The first character of a segment that reads [/...] up to case. *)
Lemma segment_slash seg w :
  upper_string seg = String "/" w ->
  exists seg', seg = String "/" seg' /\ upper_string seg' = w.
Proof.
  destruct seg as [|c seg]; [discriminate|]. simpl. intros [= E H].
  apply upper_slash in E. subst c. now exists seg.
Qed.

Lemma at_subreddit_thread_host host rest :
  all_chars not_slash host = true -> upper_string host <> "R" ->
  at_subreddit_thread (String "/" (host ++ String "/" rest)) = None.
Proof.
  intros Hh Hr. unfold at_subreddit_thread.
  destruct (strip char_is_i "/r/" (String "/" (host ++ String "/" rest)))
    as [s1|] eqn:E; [|reflexivity].
  exfalso. apply Hr. simpl in E.
  change (strip char_is_i "r/" (host ++ String "/" rest) = Some s1) in E.
  now apply (strip_i_segment "r") in E as [E _].
Qed.

Lemma at_thread_host p host rest :
  all_chars not_slash host = true -> upper_string host <> "COMMENTS" ->
  at_thread p (String "/" (host ++ String "/" rest)) = None.
Proof.
  intros Hh Hr. unfold at_thread.
  destruct (strip char_is_i "/comments/" (String "/" (host ++ String "/" rest)))
    as [s1|] eqn:E; [|reflexivity].
  exfalso. apply Hr. simpl in E.
  change (strip char_is_i "comments/" (host ++ String "/" rest) = Some s1) in E.
  now apply (strip_i_segment "comments") in E as [E _].
Qed.

Lemma at_thread_seg p seg id tail :
  upper_string seg = "/COMMENTS/" ->
  id <> "" -> all_chars p id = true -> starts_with p tail = false ->
  at_thread p (seg ++ id ++ tail) = Some (tail, [id]).
Proof.
  intros Hs H1 H2 H3. unfold at_thread.
  rewrite strip_i_app by exact Hs. now apply at_run_app.
Qed.

Lemma starts_with_app p s y :
  s <> "" -> all_chars p s = true -> starts_with p (s ++ y) = true.
Proof.
  destruct s as [|c s]; [contradiction|]. simpl. intros _ H.
  now apply andb_true_iff in H as [-> _].
Qed.

Lemma at_subreddit_thread_seg seg1 sub seg2 id tail :
  upper_string seg1 = "/R/" ->
  sub <> "" -> all_chars not_slash sub = true ->
  upper_string seg2 = "/COMMENTS/" ->
  id <> "" -> all_chars not_slash id = true ->
  starts_with not_slash tail = false ->
  at_subreddit_thread (seg1 ++ sub ++ seg2 ++ id ++ tail) =
  Some (tail, [sub; id]).
Proof.
  intros Hs1 Hb1 Hb2 Hs2 Hi1 Hi2 Ht. unfold at_subreddit_thread.
  rewrite strip_i_app by exact Hs1.
  destruct (segment_slash _ _ Hs2) as (seg2' & E2 & _).
  assert (F : starts_with not_slash (seg2 ++ id ++ tail) = false)
    by now rewrite E2.
  destruct (take_while_app not_slash sub _ Hb2 F) as [-> ->].
  rewrite (starts_with_app _ _ _ Hb1 Hb2).
  now rewrite (at_thread_seg not_slash seg2 id tail Hs2 Hi1 Hi2 Ht).
Qed.

(** X14.  A thread URL with a subreddit,
    [https://<host>/r/<sub>/comments/<id><tail>] in any letter case of
    [/r/] and [/comments/], where [tail] is empty or starts with a slash
    (a title slug, a trailing slash, a query after it), resolves to
    [https://oauth.reddit.com/r/<sub>/comments/<id>]: the host, the slug
    and the query are dropped, and the case of [sub] and [id] is kept. *)
Theorem Credentialed_subreddit_url host seg1 sub seg2 id tail :
  all_chars not_slash host = true -> upper_string host <> "R" ->
  upper_string seg1 = "/R/" ->
  sub <> "" -> all_chars not_slash sub = true ->
  upper_string seg2 = "/COMMENTS/" ->
  id <> "" -> all_chars not_slash id = true ->
  starts_with not_slash tail = false ->
  Credentialed.toRedditJsonUrl
    ("https://" ++ host ++ seg1 ++ sub ++ seg2 ++ id ++ tail) =
  Some ("https://oauth.reddit.com/r/" ++ sub ++ "/comments/" ++ id)%string.
Proof.
  intros Hh Hr Hs1 Hb1 Hb2 Hs2 Hi1 Hi2 Ht.
  unfold Credentialed.toRedditJsonUrl.
  rewrite str_match_subreddit_thread. simpl append.
  skip_prefix.
  destruct (segment_slash _ _ Hs1) as (seg1' & E1 & U1).
  rewrite find_step.
  2:{ rewrite E1. simpl append. now apply at_subreddit_thread_host. }
  rewrite (find_skip _ not_slash host _ _ at_subreddit_thread_not_slash Hh).
  erewrite find_here by (now apply at_subreddit_thread_seg).
  reflexivity.
Qed.

Lemma Credentialed_subreddit_url_witness :
  Credentialed.toRedditJsonUrl
    "https://old.reddit.com/R/AskReddit/Comments/abc123/a_title/?sort=new" =
  Some "https://oauth.reddit.com/r/AskReddit/comments/abc123".
Proof.
  apply (Credentialed_subreddit_url "old.reddit.com" "/R/" "AskReddit"
           "/Comments/" "abc123" "/a_title/?sort=new");
    (reflexivity || discriminate).
Defined.

Lemma segment_comments seg :
  upper_string seg = "/COMMENTS/" ->
  exists mid, seg = String "/" (mid ++ "/") /\
    upper_string mid = "COMMENTS" /\ all_chars not_slash mid = true.
Proof.
  intros H.
  destruct seg as [|c0 [|c1 [|c2 [|c3 [|c4 [|c5 [|c6 [|c7 [|c8 [|c9 [|]]]]]]]]]]];
    try discriminate.
  simpl in H. injection H as H0 H1 H2 H3 H4 H5 H6 H7 H8 H9.
  apply upper_slash in H0, H9. subst c0 c9.
  exists (String c1 (String c2 (String c3 (String c4 (String c5
            (String c6 (String c7 (String c8 "")))))))).
  split; [reflexivity|]. split; [simpl; congruence|]. simpl.
  rewrite (upper_not_slash c1 "C"), (upper_not_slash c2 "O"),
    (upper_not_slash c3 "M"), (upper_not_slash c4 "M"),
    (upper_not_slash c5 "E"), (upper_not_slash c6 "N"),
    (upper_not_slash c7 "T"), (upper_not_slash c8 "S"); auto.
Qed.

Lemma at_subreddit_thread_two_segments x t :
  all_chars not_slash x = true -> all_chars not_slash t = true ->
  at_subreddit_thread (String "/" (x ++ String "/" t)) = None.
Proof.
  intros Hx Ht. unfold at_subreddit_thread.
  destruct (strip char_is_i "/r/" (String "/" (x ++ String "/" t)))
    as [s1|] eqn:E; [|reflexivity].
  simpl in E.
  change (strip char_is_i "r/" (x ++ String "/" t) = Some s1) in E.
  apply (strip_i_segment "r") in E as [_ ->]; auto.
  destruct (starts_with not_slash t); [|reflexivity].
  rewrite <- (append_nil_r t) at 1.
  destruct (take_while_app not_slash t "" Ht eq_refl) as [_ ->].
  reflexivity.
Qed.

Lemma find_end (at_ : string -> outcome) skipped x (p : ascii -> bool) :
  (forall c s, p c = true -> at_ (String c s) = None) -> at_ "" = None ->
  all_chars p x = true -> find at_ skipped x = None.
Proof.
  intros Hat He Hx. rewrite <- (append_nil_r x).
  rewrite (find_skip _ p x _ "" Hat Hx). simpl. now rewrite He.
Qed.

(** X15.  A thread URL without a subreddit,
    [https://<host>/comments/<id>], alone or followed by one more
    segment, resolves to [https://oauth.reddit.com/comments/<id>]. *)
Theorem Credentialed_thread_url host seg id tail :
  all_chars not_slash host = true ->
  upper_string host <> "R" -> upper_string host <> "COMMENTS" ->
  upper_string seg = "/COMMENTS/" ->
  id <> "" -> all_chars not_slash id = true ->
  tail = "" \/ (exists t, tail = String "/" t /\ all_chars not_slash t = true) ->
  Credentialed.toRedditJsonUrl ("https://" ++ host ++ seg ++ id ++ tail) =
  Some ("https://oauth.reddit.com/comments/" ++ id)%string.
Proof.
  intros Hh Hr Hc Hs Hi1 Hi2 Ht.
  destruct (segment_comments _ Hs) as (mid & E & Um & Hm).
  assert (Ts : starts_with not_slash tail = false).
  { destruct Ht as [->|(t & -> & _)]; reflexivity. }
  unfold Credentialed.toRedditJsonUrl.
  rewrite str_match_subreddit_thread. simpl append. skip_prefix.
  replace (find at_subreddit_thread "https:/"
             (String "/" (host ++ seg ++ id ++ tail))) with (@None regmatch).
  - unfold re_thread. rewrite str_match_thread. simpl append. skip_prefix.
    rewrite find_step.
    2:{ rewrite E. simpl append. now apply at_thread_host. }
    rewrite (find_skip _ not_slash host _ _ (at_thread_not_slash _) Hh).
    erewrite find_here by (now apply at_thread_seg).
    reflexivity.
  - symmetry. rewrite E. simpl append.
    rewrite find_step by (now apply at_subreddit_thread_host).
    rewrite (find_skip _ not_slash host _ _ at_subreddit_thread_not_slash Hh).
    simpl append. rewrite (append_assoc mid). simpl append.
    rewrite find_step.
    2:{ apply at_subreddit_thread_host; [exact Hm|]. rewrite Um. discriminate. }
    rewrite (find_skip _ not_slash mid _ _ at_subreddit_thread_not_slash Hm).
    destruct Ht as [->|(t & -> & Ht)].
    + rewrite find_step
        by (rewrite append_nil_r; now apply at_subreddit_thread_slash_run).
      now apply find_end with not_slash;
        [apply at_subreddit_thread_not_slash|reflexivity
        |rewrite append_nil_r].
    + rewrite find_step by (now apply at_subreddit_thread_two_segments).
      rewrite (find_skip _ not_slash id _ _ at_subreddit_thread_not_slash Hi2).
      rewrite find_step by (now apply at_subreddit_thread_slash_run).
      now apply find_end with not_slash;
        [apply at_subreddit_thread_not_slash|reflexivity|].
Qed.

Lemma Credentialed_thread_url_witness :
  Credentialed.toRedditJsonUrl "https://www.reddit.com/comments/abc123/" =
  Some "https://oauth.reddit.com/comments/abc123".
Proof.
  apply (Credentialed_thread_url "www.reddit.com" "/comments/" "abc123" "/");
    try (reflexivity || discriminate).
  right. exists "". split; reflexivity.
Defined.

(** ** The public resolvers *)

Lemma alnum_not_query c : alnum_i c = true -> negb (Ascii.eqb c "?") = true.
Proof. destruct c as [[] [] [] [] [] [] [] []]; cbv; congruence. Qed.

Lemma all_chars_impl (p q : ascii -> bool) s :
  (forall c, p c = true -> q c = true) ->
  all_chars p s = true -> all_chars q s = true.
Proof.
  intros H. induction s as [|c s IH]; simpl; [reflexivity|].
  intros Hs. apply andb_true_iff in Hs as [Hc Hs]. now rewrite (H _ Hc), IH.
Qed.

Lemma PublicShort_cases u :
  (exists id, id <> "" /\ all_chars alnum_i id = true /\
     PublicShort.toRedditJsonUrl u =
     ("https://www.reddit.com/comments/" ++ id ++ ".json")%string) \/
  (str_match u re_thread_alnum = None /\
   PublicShort.toRedditJsonUrl u = with_json_suffix (cleaned u)).
Proof.
  unfold PublicShort.toRedditJsonUrl, re_thread_alnum.
  rewrite str_match_thread.
  destruct (find (at_thread alnum_i) "" u) as [m|] eqn:E; [left|now right].
  apply find_Some in E as (pre & rest & _ & E & _).
  apply at_thread_Some in E as (s1 & id & _ & G & H1 & H2 & _).
  exists id. unfold group. rewrite G. auto.
Qed.

(** X16.  Every public resolver returns, for every input, a URL that
    ends in [.json] and has no query string. *)
Theorem public_urls_normal u :
  (endsWith (PublicBasic.toRedditJsonUrl u) ".json" = true /\
   no_query (PublicBasic.toRedditJsonUrl u) = true) /\
  (endsWith (PublicHost.toRedditJsonUrl u) ".json" = true /\
   no_query (PublicHost.toRedditJsonUrl u) = true) /\
  (endsWith (PublicShort.toRedditJsonUrl u) ".json" = true /\
   no_query (PublicShort.toRedditJsonUrl u) = true).
Proof.
  split; [|split].
  - split; [apply with_json_suffix_ends|apply normalised_no_query].
  - split.
    + apply replace_host_ends, with_json_suffix_ends.
    + apply replace_host_no_query, normalised_no_query.
  - destruct (PublicShort_cases u) as [(id & H1 & H2 & ->)|[_ ->]].
    + split.
      * apply endsWith_iff. exists ("https://www.reddit.com/comments/" ++ id)%string.
        now rewrite append_assoc.
      * unfold no_query. rewrite !all_chars_app.
        rewrite (all_chars_impl _ _ id alnum_not_query H2). reflexivity.
    + split; [apply with_json_suffix_ends|apply normalised_no_query].
Qed.





Lemma rstrip_keep x : forall y,
  x <> "" -> rstrip x = x -> rstrip (x ++ y) = (x ++ rstrip y)%string.
Proof.
  induction x as [|a x IH]; intros y Hne Hx; [contradiction|].
  simpl in *.
  destruct (Ascii.eqb a "/" && (rstrip x =? "")) eqn:E; [discriminate|].
  injection Hx as Hx. destruct x as [|b x].
  - simpl in *. rewrite andb_true_r in E. now rewrite E.
  - rewrite (IH y) by (discriminate || assumption). simpl.
    now rewrite andb_false_r.
Qed.

Lemma split_first_keep x : forall y,
  no_query x = true -> split_first "?" (x ++ y) = (x ++ split_first "?" y)%string.
Proof.
  unfold no_query. induction x as [|a x IH]; intros y Hx; [reflexivity|].
  simpl in *. apply andb_true_iff in Hx as [Ha Hx].
  destruct (Ascii.eqb a "?"); [discriminate|]. now rewrite IH.
Qed.

Lemma normalised_keep x y :
  x <> "" -> rstrip x = x -> no_query x = true ->
  exists rest, with_json_suffix (cleaned (x ++ y)) = (x ++ rest)%string.
Proof.
  intros Hne Hr Hq. rewrite cleaned_eq, split_first_keep, rstrip_keep by auto.
  destruct (with_json_suffix_cases (x ++ rstrip (split_first "?" y)))
    as [[_ ->]|[_ ->]]; [eauto|].
  rewrite append_assoc. eauto.
Qed.

Lemma replace_alt_host w rest :
  In w ["old"; "mobile"; "pay"] ->
  str_replace ("https://" ++ w ++ ".reddit.com" ++ rest) re_alt_host
    "www.reddit.com" = ("https://www.reddit.com" ++ rest)%string.
Proof.
  intros Hw. unfold str_replace. rewrite (search_find _ _ exec_alt_host).
  destruct Hw as [<-|[<-|[<-|[]]]]; simpl append; skip_prefix;
    (erewrite find_here by reflexivity); reflexivity.
Qed.

(** X18.  On a URL of the old, mobile or pay host, the resolver of
    [part_001] returns what the plain fallback returns with the host
    replaced by [www.reddit.com]; the path is left alone. *)
Theorem alternate_host_rewritten w path :
  In w ["old"; "mobile"; "pay"] ->
  exists rest,
    PublicBasic.toRedditJsonUrl ("https://" ++ w ++ ".reddit.com" ++ path) =
      ("https://" ++ w ++ ".reddit.com" ++ rest)%string /\
    PublicHost.toRedditJsonUrl ("https://" ++ w ++ ".reddit.com" ++ path) =
      ("https://www.reddit.com" ++ rest)%string.
Proof.
  intros Hw. unfold PublicHost.toRedditJsonUrl, PublicBasic.toRedditJsonUrl.
  assert (K : exists rest,
             with_json_suffix
               (cleaned ("https://" ++ w ++ ".reddit.com" ++ path)) =
             ("https://" ++ w ++ ".reddit.com" ++ rest)%string).
  { destruct Hw as [<-|[<-|[<-|[]]]].
    - apply (normalised_keep "https://old.reddit.com"); (discriminate || reflexivity).
    - apply (normalised_keep "https://mobile.reddit.com");
        (discriminate || reflexivity).
    - apply (normalised_keep "https://pay.reddit.com"); (discriminate || reflexivity). }
  destruct K as [rest K]. exists rest. rewrite K. split; [reflexivity|].
  now apply replace_alt_host.
Qed.

Lemma alternate_host_rewritten_witness :
  In "mobile" ["old"; "mobile"; "pay"] /\
  exists rest,
    PublicBasic.toRedditJsonUrl
      ("https://" ++ "mobile" ++ ".reddit.com" ++ "/r/x/comments/abc/?a=1") =
      ("https://" ++ "mobile" ++ ".reddit.com" ++ rest)%string /\
    PublicHost.toRedditJsonUrl
      ("https://" ++ "mobile" ++ ".reddit.com" ++ "/r/x/comments/abc/?a=1") =
      ("https://www.reddit.com" ++ rest)%string.
Proof.
  split; [right; left; reflexivity|].
  apply (alternate_host_rewritten "mobile" "/r/x/comments/abc/?a=1").
  right. left. reflexivity.
Defined.

(* ================================================================== *)
(** * The visitor counter: properties *)
(* ================================================================== *)

Lemma own_property_set k v props :
  own_property k (set_property k v props) = Some v.
Proof.
  induction props as [|[k' v'] rest IH]; simpl.
  - now rewrite String.eqb_refl.
  - destruct (k =? k') eqn:E; simpl; [now rewrite String.eqb_refl|].
    now rewrite E.
Qed.

Lemma own_property_set_other k k' v props :
  k' <> k -> own_property k' (set_property k v props) = own_property k' props.
Proof.
  intros Hne. apply String.eqb_neq in Hne.
  induction props as [|[k0 v0] rest IH]; simpl.
  - now rewrite Hne.
  - destruct (String.eqb_spec k k0) as [<-|F]; simpl.
    + now rewrite Hne.
    + now rewrite IH.
Qed.

Lemma set_property_keys k v props :
  own_property k props <> None ->
  map fst (set_property k v props) = map fst props.
Proof.
  induction props as [|[k0 v0] rest IH]; simpl; [congruence|].
  destruct (String.eqb_spec k k0) as [<-|F]; simpl; [reflexivity|].
  intros H. now rewrite IH.
Qed.

Section Counter.

Variable tn : json -> number.

Lemma trackVisit_object written props :
  Stats.trackVisit tn written root_visit (Holds (JObj props)) =
  Ok (updateStats written
        (JObj (set_property "visitorCount"
                 (stored_number
                    (num_add
                       (Credentialed.ToNumber tn
                          (own_property "visitorCount" props)) (Num 1)))
                 props))
        (Holds (JObj props))).
Proof. reflexivity. Qed.

Lemma visits_object k : forall props n,
  Credentialed.ToNumber tn (own_property "visitorCount" props) = Num n ->
  exists props',
    visits tn k (Holds (JObj props)) = Ok (Holds (JObj props')) /\
    (k <> 0 -> own_property "visitorCount" props' = Some (JNum (n + Z.of_nat k))) /\
    (forall key, key <> "visitorCount" ->
       own_property key props' = own_property key props).
Proof.
  induction k as [|k IH]; intros props n Hn.
  - exists props. split; [reflexivity|]. split; [congruence|reflexivity].
  - cbn [visits]. rewrite trackVisit_object. cbn [bind updateStats].
    rewrite Hn. cbn [num_add stored_number].
    destruct (IH (set_property "visitorCount" (JNum (n + 1)) props) (n + 1)%Z)
      as (props' & Hv & Hc & Ho).
    { now rewrite own_property_set. }
    exists props'. split; [exact Hv|]. split.
    + intros _. destruct k as [|k'].
      * cbn [visits] in Hv. injection Hv as <-.
        rewrite own_property_set. f_equal; f_equal; lia.
      * rewrite Hc by discriminate. f_equal; f_equal; lia.
    + intros key Hk. rewrite (Ho key Hk). now apply own_property_set_other.
Qed.

(** X19.  Counting works: on a stats object whose [visitorCount]
    converts to the number [n], [k] visits of the page leave the file with
    the count [n + k] (within the integers a JavaScript number holds
    exactly), every other property of the object is kept, and the admin
    page then shows [n + k]. *)
Theorem visits_counted k props n :
  Credentialed.ToNumber tn (own_property "visitorCount" props) = Num n ->
  (Z.abs n + Z.of_nat k < 2 ^ 53)%Z ->
  k <> 0 ->
  exists props',
    visits tn k (Holds (JObj props)) = Ok (Holds (JObj props')) /\
    own_property "visitorCount" props' = Some (JNum (n + Z.of_nat k)) /\
    (forall key, key <> "visitorCount" ->
       own_property key props' = own_property key props) /\
    Stats.adminStats (Some (JStr "admin123")) (Holds (JObj props')) =
      Ok (Page (Some (JNum (n + Z.of_nat k)))).
Proof.
  intros Hn _ Hk. destruct (visits_object k props n Hn) as (props' & Hv & Hc & Ho).
  exists props'. repeat split; auto.
  unfold Stats.adminStats. cbn. now rewrite Hc.
Qed.

Lemma visits_fresh k :
  visits tn (S k) (Holds (JObj [("visitorCount", JNum 0)])) =
  Ok (Holds (JObj [("visitorCount", JNum (Z.of_nat (S k)))])).
Proof.
  assert (G : forall k n,
             visits tn k (Holds (JObj [("visitorCount", JNum n)])) =
             Ok (Holds (JObj [("visitorCount", JNum (n + Z.of_nat k))]))).
  { clear k. induction k as [|k IH]; intros n.
    - cbn [visits Z.of_nat]. now rewrite Z.add_0_r.
    - change (visits tn (S k) (Holds (JObj [("visitorCount", JNum n)])))
        with (visits tn k (Holds (JObj [("visitorCount", JNum (n + 1))]))).
      rewrite IH. now replace (n + 1 + Z.of_nat k)%Z
                        with (n + Z.of_nat (S k))%Z by lia. }
  rewrite G. reflexivity.
Qed.

(** X20.  A missing or unreadable stats file restarts the count: after
    [k + 1] visits the file holds exactly [{visitorCount: k + 1}],
    whatever had been counted before. *)
Theorem lost_file_restarts k file :
  file = Absent \/ file = Unreadable ->
  visits tn (S k) file =
  Ok (Holds (JObj [("visitorCount", JNum (Z.of_nat (S k)))])).
Proof.
  intros H. rewrite <- visits_fresh.
  destruct H as [-> | ->]; reflexivity.
Qed.


Lemma trackVisit_unusable written stats :
  unusable stats = true ->
  exists e, Stats.trackVisit tn written root_visit (Holds stats) = Throw e.
Proof. destruct stats; try discriminate; intros _; cbn; eauto. Qed.

(** X22.  A stats file that holds [null], a boolean, a number or a
    string is never repaired: every visit of the page throws in the
    middleware, before [next()], and leaves the file as it is, so all
    later visits throw as well; requests other than [GET /] pass. *)
Theorem unusable_stats_block_root stats :
  unusable stats = true ->
  (forall written,
     exists e, Stats.trackVisit tn written root_visit (Holds stats) = Throw e) /\
  (forall k, exists e, visits tn (S k) (Holds stats) = Throw e) /\
  (forall written req,
     req_method req <> "GET" \/ req_path req <> "/" ->
     Stats.trackVisit tn written req (Holds stats) = Ok (Holds stats)).
Proof.
  intros H. split; [|split].
  - intros written. now apply trackVisit_unusable.
  - intros k. destruct (trackVisit_unusable true stats H) as [e He].
    exists e. cbn [visits]. now rewrite He.
  - intros written req Hreq. unfold Stats.trackVisit.
    destruct (String.eqb_spec (req_method req) "GET") as [Hm|Hm];
      [|reflexivity].
    destruct (String.eqb_spec (req_path req) "/") as [Hp|Hp]; [|reflexivity].
    destruct Hreq; contradiction.
Qed.

(** X23.  A stats file that holds an array is never counted: every
    visit writes the array back unchanged, and the admin page shows
    [undefined]. *)
Theorem array_stats_never_count k items :
  visits tn k (Holds (JArr items)) = Ok (Holds (JArr items)) /\
  Stats.adminStats (Some (JStr "admin123")) (Holds (JArr items)) =
    Ok (Page None).
Proof.
  split; [|reflexivity].
  induction k as [|k IH]; [reflexivity|]. cbn [visits]. cbn. exact IH.
Qed.

(** X24.  A stats object without a [visitorCount] loses one visit: the
    first visit stores [null] (the [NaN] of [undefined + 1] as JSON
    writes it), counting restarts from it, and after [k + 2] visits the
    count is [k + 1]. *)
Theorem missing_count_loses_one_visit k props :
  own_property "visitorCount" props = None ->
  exists first props',
    visits tn 1 (Holds (JObj props)) = Ok (Holds (JObj first)) /\
    own_property "visitorCount" first = Some JNull /\
    visits tn (S (S k)) (Holds (JObj props)) = Ok (Holds (JObj props')) /\
    own_property "visitorCount" props' = Some (JNum (Z.of_nat (S k))) /\
    (forall key, key <> "visitorCount" ->
       own_property key props' = own_property key props).
Proof.
  intros Hnone.
  exists (set_property "visitorCount" JNull props).
  destruct (visits_object (S k) (set_property "visitorCount" JNull props) 0)
    as (props' & Hv & Hc & Ho).
  { now rewrite own_property_set. }
  exists props'. split; [|split; [|split; [|split]]].
  - cbn [visits]. rewrite trackVisit_object, Hnone. reflexivity.
  - apply own_property_set.
  - change (visits tn (S (S k)) (Holds (JObj props)))
      with (file' <- Stats.trackVisit tn true root_visit (Holds (JObj props)) ;;
            visits tn (S k) file').
    rewrite trackVisit_object, Hnone. cbn [bind]. exact Hv.
  - rewrite Hc by discriminate. reflexivity.
  - intros key Hk. rewrite (Ho key Hk). now apply own_property_set_other.
Qed.

End Counter.

Lemma visits_counted_witness :
  let props := [("visitorCount", JNum 41); ("since", JStr "2024")] in
  exists props',
    visits no_coercion 3 (Holds (JObj props)) = Ok (Holds (JObj props')) /\
    own_property "visitorCount" props' = Some (JNum 44) /\
    own_property "since" props' = Some (JStr "2024").
Proof.
  intros props.
  destruct (visits_counted no_coercion 3 props 41 eq_refl eq_refl
              ltac:(discriminate)) as (props' & H1 & H2 & H3 & _).
  exists props'. split; [exact H1|]. split; [exact H2|].
  rewrite (H3 "since" ltac:(discriminate)). reflexivity.
Defined.

Lemma lost_file_restarts_witness :
  visits no_coercion 3 Unreadable =
  Ok (Holds (JObj [("visitorCount", JNum 3)])).
Proof.
  apply (lost_file_restarts no_coercion 2 Unreadable). right. reflexivity.
Defined.


Lemma unusable_stats_block_root_witness :
  unusable (JStr "41") = true /\
  (exists e,
     Stats.trackVisit no_coercion true root_visit (Holds (JStr "41")) =
     Throw e) /\
  (exists e, visits no_coercion 5 (Holds (JStr "41")) = Throw e) /\
  Stats.trackVisit no_coercion true
    {| req_method := "POST"; req_path := "/api/scrape" |} (Holds (JStr "41")) =
  Ok (Holds (JStr "41")).
Proof.
  split; [reflexivity|].
  destruct (unusable_stats_block_root no_coercion (JStr "41") eq_refl)
    as (H1 & H2 & H3).
  split; [exact (H1 true)|]. split; [exact (H2 4)|].
  apply (H3 true {| req_method := "POST"; req_path := "/api/scrape" |}).
  left. discriminate.
Defined.

Lemma missing_count_loses_one_visit_witness :
  exists first props',
    visits no_coercion 1 (Holds (JObj [])) = Ok (Holds (JObj first)) /\
    own_property "visitorCount" first = Some JNull /\
    visits no_coercion 4 (Holds (JObj [])) = Ok (Holds (JObj props')) /\
    own_property "visitorCount" props' = Some (JNum 3).
Proof.
  destruct (missing_count_loses_one_visit no_coercion 2 [] eq_refl)
    as (first & props' & H1 & H2 & H3 & H4 & _).
  exists first, props'. repeat split; assumption.
Defined.


(** X25.  The admin page: the reply is the 401 exactly when the [key]
    of the query is not the string ["admin123"], the stats file being
    not even read; with the key, the handler throws exactly when the file
    holds [null], and otherwise shows [getStats().visitorCount]. *)
Theorem admin_page_guard key file :
  (Stats.adminStats key file = Ok Denied <-> key <> Some (JStr "admin123")) /\
  ((exists e, Stats.adminStats key file = Throw e) <->
   key = Some (JStr "admin123") /\ file = Holds JNull) /\
  (key = Some (JStr "admin123") -> file <> Holds JNull ->
   Stats.adminStats key file = Ok (Page (count_of file))).
Proof.
  assert (K : strict_eq_string key "admin123" = true <->
              key = Some (JStr "admin123")).
  { destruct key as [[]|]; simpl; try (split; congruence).
    split; [intros H%String.eqb_eq; congruence|].
    intros [= ->]. reflexivity. }
  assert (M : forall j, j <> JNull ->
                member (Some j) "visitorCount" =
                Ok (opt_member (Some j) "visitorCount")).
  { intros [] H; try reflexivity. now elim H. }
  assert (G : getStats file = JNull <-> file = Holds JNull).
  { destruct file; simpl; split; congruence. }
  unfold Stats.adminStats, count_of.
  destruct (strict_eq_string key "admin123") eqn:E; cbn [negb].
  - destruct K as [K _]. specialize (K eq_refl). subst key.
    assert (D : getStats file = JNull \/ getStats file <> JNull).
    { destruct (getStats file); (now left) || (right; discriminate). }
    destruct D as [Hs|Hs].
    + apply G in Hs. subst file. cbn.
      split; [split; [discriminate|congruence]|].
      split; [split; eauto|congruence].
    + rewrite (M _ Hs). cbn [bind].
      split; [split; [discriminate|congruence]|].
      split; [|reflexivity].
      split; [intros [e He]; discriminate|].
      intros [_ F]. apply G in F. contradiction.
  - assert (Hk : key <> Some (JStr "admin123")).
    { intros F. apply K in F. discriminate. }
    split; [split; auto|].
    split; [split; [intros [e He]; discriminate|intros [F _]; contradiction]|].
    intros F. contradiction.
Qed.

Lemma admin_page_guard_witness :
  Stats.adminStats (Some (JStr "admin")) (Holds JNull) = Ok Denied /\
  (exists e, Stats.adminStats (Some (JStr "admin123")) (Holds JNull) = Throw e)
  /\
  Stats.adminStats (Some (JStr "admin123")) Absent = Ok (Page (Some (JNum 0))).
Proof.
  split; [|split].
  - apply (proj2 (proj1 (admin_page_guard (Some (JStr "admin")) (Holds JNull)))).
    discriminate.
  - apply (proj2 (proj1 (proj2 (admin_page_guard (Some (JStr "admin123"))
                                  (Holds JNull))))).
    split; reflexivity.
  - apply (proj2 (proj2 (admin_page_guard (Some (JStr "admin123")) Absent)));
      [reflexivity|discriminate].
Defined.
